(** * mcp-client: the SSE transport, the server registry, the client cache,
      the tool invoker and the test runner of [src/operations/mcp-client.ts]

    The development follows the TypeScript source function by function.
    JavaScript values that travel over JSON-RPC are a small JSON datatype,
    thrown values are an error type, the two module-level [Map]s are finite
    maps keyed by server name, and every [async] function is a computation in
    a state-and-exception monad whose state holds the maps, the transports
    that were allocated, the rejections left unhandled and the wall clock
    read by [Date.now()].  What lives
    outside the file (the MCP SDK client, [fetch], [JSON], [RegExp],
    [../common/errors.js], [./docker.js]) is gathered in one record of
    operations, [Env], that every function takes as its first argument. *)

From Stdlib Require Import ZArith String List Bool Lia.
From stdpp Require Import base option gmap strings pretty list fin_maps.

Set Warnings "-register-all".
Local Open Scope string_scope.
Local Open Scope list_scope.
Local Open Scope Z_scope.

(* ===================================================================== *)
(** ** JavaScript values and thrown errors                                *)
(* ===================================================================== *)

Module JS.

(** The values exchanged with the remote server are JSON values.  Numbers
    are kept as integers: no property below depends on fractions. *)
Inductive value : Type :=
  | Null
  | Bool (b : bool)
  | Num (n : Z)
  | Str (s : string)
  | Arr (items : list value)
  | Obj (fields : list (string * value)).

(** What a [throw] can carry.  The first three are instances of [Error]
    ([ServerNotFoundError] and [ToolCallError] come from
    [../common/errors.js]); [Thrown] is any value that is not. *)
Inductive error : Type :=
  | ServerNotFoundError (server : string)
  | ToolCallError (server tool reason : string)
  | Error (message : string)
  | Thrown (v : value).

(** [e instanceof Error] *)
Definition instanceof_Error (e : error) : bool :=
  match e with Thrown _ => false | _ => true end.

(** [e instanceof ServerNotFoundError] *)
Definition instanceof_ServerNotFoundError (e : error) : bool :=
  match e with ServerNotFoundError _ => true | _ => false end.

(** [s.length > 0], the truthiness of a string *)
Definition nonempty (s : string) : bool :=
  match s with EmptyString => false | String _ _ => true end.

(** Truthiness of a value, as [&&] and [if] test it. *)
Definition truthy (v : value) : bool :=
  match v with
  | Null => false
  | Bool b => b
  | Num n => negb (n =? 0)
  | Str s => nonempty s
  | Arr _ | Obj _ => true
  end.

(** Truthiness of a value that may be [undefined]. *)
Definition truthy_opt (o : option value) : bool :=
  match o with Some v => truthy v | None => false end.

(** Own property of an object literal; the first binding of a key wins. *)
Fixpoint field (key : string) (fields : list (string * value)) : option value :=
  match fields with
  | [] => None
  | (k, v) :: rest => if String.eqb k key then Some v else field key rest
  end.

(** [v.key] for a value that is not [null]: [None] is [undefined].  Only
    objects carry the keys read by the source ([content], [type], [text]). *)
Definition prop (v : value) (key : string) : option value :=
  match v with
  | Obj fields => field key fields
  | _ => None
  end.

(** [s.includes(sub)] *)
Fixpoint includes (s sub : string) : bool :=
  String.prefix sub s ||
  match s with
  | EmptyString => false
  | String _ rest => includes rest sub
  end.

End JS.

Import JS.

(* ===================================================================== *)
(** ** The world outside the file                                         *)
(* ===================================================================== *)

(** A cached SDK client: the name it was created with and the transport it
    was connected through ([client._transport]), a reference into the store
    of transports. *)
Record Client : Type := mkClient {
  client_name : string;
  _transport : option nat;
}.

(** Operations the source calls but does not define.  Network operations
    depend on the moment they are issued (the clock reading) and report how
    long they took. *)
Record Env : Type := mkEnv {
  (** [JSON.parse]: [None] when it throws a [SyntaxError] *)
  JSON_parse : string -> option value;
  (** [JSON.stringify] *)
  JSON_stringify : value -> string;
  (** [String(v)] for a value that is not already a string *)
  String_of : value -> string;
  (** [new RegExp(v)]: the compiled matcher, or the error it throws *)
  RegExp_new : value -> error + (string -> bool);
  (** the [message] that [new ServerNotFoundError(name)] carries *)
  ServerNotFoundError_message : string -> string;
  (** the [message] that [new ToolCallError(server, tool, reason)] carries *)
  ToolCallError_message : string -> string -> string -> string;
  (** [getServerProcess(name)] of [./docker.js]: the error it throws, if any *)
  getServerProcess : string -> option error;
  (** [fetch(url, {method: 'HEAD'})] under its 1 s abort timer *)
  fetch_HEAD : Z -> string -> option error * Z;
  (** [client.connect(transport)] for a server name and url *)
  Client_connect : Z -> string -> string -> option error * Z;
  (** [client.callTool({name, arguments})] *)
  Client_callTool : Z -> Client -> string -> value -> (error + value) * Z;
  (** [client.listTools()] followed by the extraction of the tool names *)
  Client_listTools : Z -> Client -> (error + list string) * Z;
}.

(** [error.message] *)
Definition message (E : Env) (e : error) : string :=
  match e with
  | ServerNotFoundError server => ServerNotFoundError_message E server
  | ToolCallError server tool reason => ToolCallError_message E server tool reason
  | Error m => m
  | Thrown _ => EmptyString
  end.

(** [String(v)] *)
Definition to_string (E : Env) (v : value) : string :=
  match v with Str s => s | _ => String_of E v end.

(** [error instanceof Error ? error.message : String(error)] *)
Definition error_text (E : Env) (e : error) : string :=
  match e with
  | Thrown v => to_string E v
  | _ => message E e
  end.

(* ===================================================================== *)
(** ** [class SSETransport]                                               *)
(* ===================================================================== *)

Module Transport.

(** A callback installed by the observer (the SDK client), by what a call
    to it does. *)
Inductive callback : Type :=
  | Returns
  | Throws (e : error).

(** The fields of the class.  [eventSource] is the number of the live
    [EventSource], [None] for [null]. *)
Record SSETransport : Type := mkTransport {
  eventSource : option nat;
  messageQueue : list value;
  connected : bool;
  serverUrl : string;
  serverName : string;
  reconnectAttempts : nat;
  maxReconnectAttempts : nat;
  reconnectDelay : Z;
  onclose : option callback;
  onerror : option callback;
  onmessage : option callback;
}.

(** What a method does to the outside: streams opened and released, calls
    made to the observer, delays slept. *)
Inductive output : Type :=
  | OpenStream (id : nat)
  | CloseStream (id : nat)
  | Wait (ms : Z)
  | NotifyClose
  | NotifyError (e : error).

(** [new SSETransport(serverName, serverUrl)] *)
Definition new (name url : string) : SSETransport :=
  {| eventSource := None; messageQueue := []; connected := false;
     serverUrl := url; serverName := name;
     reconnectAttempts := 0; maxReconnectAttempts := 3; reconnectDelay := 1000;
     onclose := None; onerror := None; onmessage := None |}.

Definition set_eventSource (es : option nat) (t : SSETransport) : SSETransport :=
  {| eventSource := es; messageQueue := messageQueue t; connected := connected t;
     serverUrl := serverUrl t; serverName := serverName t;
     reconnectAttempts := reconnectAttempts t;
     maxReconnectAttempts := maxReconnectAttempts t;
     reconnectDelay := reconnectDelay t;
     onclose := onclose t; onerror := onerror t; onmessage := onmessage t |}.

Definition set_connected (b : bool) (t : SSETransport) : SSETransport :=
  {| eventSource := eventSource t; messageQueue := messageQueue t; connected := b;
     serverUrl := serverUrl t; serverName := serverName t;
     reconnectAttempts := reconnectAttempts t;
     maxReconnectAttempts := maxReconnectAttempts t;
     reconnectDelay := reconnectDelay t;
     onclose := onclose t; onerror := onerror t; onmessage := onmessage t |}.

Definition set_reconnectAttempts (n : nat) (t : SSETransport) : SSETransport :=
  {| eventSource := eventSource t; messageQueue := messageQueue t;
     connected := connected t;
     serverUrl := serverUrl t; serverName := serverName t;
     reconnectAttempts := n;
     maxReconnectAttempts := maxReconnectAttempts t;
     reconnectDelay := reconnectDelay t;
     onclose := onclose t; onerror := onerror t; onmessage := onmessage t |}.

(** The observer fields [onclose], [onerror] and [onmessage], as the SDK
    client assigns them when it takes the transport. *)
Definition observe (c e m : option callback) (t : SSETransport) : SSETransport :=
  {| eventSource := eventSource t; messageQueue := messageQueue t;
     connected := connected t;
     serverUrl := serverUrl t; serverName := serverName t;
     reconnectAttempts := reconnectAttempts t;
     maxReconnectAttempts := maxReconnectAttempts t;
     reconnectDelay := reconnectDelay t;
     onclose := c; onerror := e; onmessage := m |}.

(** [if (this.onerror && error instanceof Error) this.onerror(error)].  A
    throw of the callback itself replaces the error in flight. *)
Definition report (t : SSETransport) (e : error) : error * list output :=
  match onerror t with
  | Some cb =>
      if instanceof_Error e then
        match cb with
        | Returns => (e, [NotifyError e])
        | Throws e' => (e', [NotifyError e])
        end
      else (e, [])
  | None => (e, [])
  end.

(** [async close()]: the stream is released when there is one; the
    observer's [onclose] is then called whenever it is set.  The result is
    the settled promise ([inl] for a rejection), the transport afterwards and
    what was done to the outside. *)
Definition close (t : SSETransport) : (error + unit) * SSETransport * list output :=
  let '(t1, released) :=
    match eventSource t with
    | Some id => (set_connected false (set_eventSource None t), [CloseStream id])
    | None => (t, [])
    end in
  match onclose t1 with
  | None => (inr tt, t1, released)
  | Some Returns => (inr tt, t1, released ++ [NotifyClose])
  | Some (Throws e) =>
      let '(e', reported) := report t1 e in
      (inl e', t1, released ++ [NotifyClose] ++ reported)
  end.

(** [n] calls of [close()] one after the other, with everything they did. *)
Fixpoint close_times (n : nat) (t : SSETransport) : SSETransport * list output :=
  match n with
  | O => (t, [])
  | S k =>
      let '(_, t1, out1) := close t in
      let '(t2, out2) := close_times k t1 in
      (t2, out1 ++ out2)
  end.

(** How many times the observer's closure callback was called. *)
Definition closures (out : list output) : nat :=
  List.length (List.filter (fun o => match o with NotifyClose => true | _ => false end) out).

(** How many times a stream was released. *)
Definition releases (out : list output) : nat :=
  List.length (List.filter (fun o => match o with CloseStream _ => true | _ => false end) out).

(** *** [start()] and the stream handlers as a machine driven by events

    The machine covers [start()] and the handlers it installs on the
    stream.  Events of a stream are those of the stream the transport holds
    in [eventSource].  A [start()] that finds a stream in place puts the new
    one in its place without closing it, and the events of the stream so
    replaced are not followed: the machine is that of the source on the runs
    in which every [start()] finds no stream in place, as on every run of a
    transport started without a stream on which only the error handler calls
    [start()].  The [EventSource] constructor is taken to return; [send]
    enters only through the [start()] it calls when not connected. *)

(** A transport in use: the object, the number of [EventSource]s created so
    far, the reconnect delays being slept, the [start()] promises not yet
    settled (stream number, and whether the error handler made the call),
    and everything done to the outside, oldest first. *)
Record Running : Type := mkRunning {
  tr : SSETransport;
  streams : nat;
  timers : list Z;
  starts : list (nat * bool);
  trace : list output;
}.

(** What can happen to a transport in use. *)
Inductive event : Type :=
  | Start                        (* [start()] called by the client or by [send] *)
  | StreamOpen                   (* the live stream fires [onopen] *)
  | StreamError                  (* the live stream fires [onerror] *)
  | DelayElapsed (i : nat)       (* the [i]-th reconnect delay is over *)
  | ConnectTimeout (i : nat).    (* the 5 s timer of the [i]-th pending [start()] fires *)

(** The synchronous part of [start()]: the attempt counter is reset, a new
    [EventSource] is created and its handlers are installed. *)
Definition start_sync (from_handler : bool) (r : Running) : Running :=
  let id := streams r in
  {| tr := set_eventSource (Some id) (set_reconnectAttempts 0 (tr r));
     streams := S id;
     timers := timers r;
     starts := starts r ++ [(id, from_handler)];
     trace := trace r ++ [OpenStream id] |}.

(** [this.reconnectDelay * Math.pow(2, this.reconnectAttempts - 1)].  With
    the constants of the class the value is at most 1000 * 2 ^ 2, which the
    floating point of the source holds exactly. *)
Definition backoff (t : SSETransport) : Z :=
  reconnectDelay t * 2 ^ (Z.of_nat (reconnectAttempts t) - 1).

(** The [onerror] handler of the stream up to its [await].  [id] is the
    stream that fired; the handler closes the stream the transport holds at
    that moment, if it holds one. *)
Definition stream_onerror (id : nat) (r : Running) : Running :=
  let t := tr r in
  if (reconnectAttempts t <? maxReconnectAttempts t)%nat then
    let t1 := set_reconnectAttempts (S (reconnectAttempts t)) t in
    let delay := backoff t1 in
    {| tr := set_eventSource None t1;
       streams := streams r;
       timers := timers r ++ [delay];
       starts := starts r;
       trace := trace r ++
                match eventSource t with
                | Some live => [CloseStream live]
                | None => []
                end ++ [Wait delay] |}
  else
    let e := Error ("SSE connection failed after "
                    +:+ pretty (maxReconnectAttempts t) +:+ " attempts") in
    {| tr := set_connected false t;
       streams := streams r;
       timers := timers r;
       starts := starts r;
       trace := trace r ++
                match onerror t with Some _ => [NotifyError e] | None => [] end |}.

(** The [onopen] handler left on the stream by [start()] (the second
    assignment replaces the first): the promise of that [start()] resolves. *)
Definition stream_onopen (id : nat) (r : Running) : Running :=
  {| tr := set_connected true (tr r);
     streams := streams r;
     timers := timers r;
     starts := List.filter (fun p => negb (Nat.eqb (fst p) id)) (starts r);
     trace := trace r |}.

(** The 5 s timer of a pending [start()] rejects its promise; when the error
    handler was awaiting it, the failure is reported to the observer. *)
Definition start_timeout (i : nat) (from_handler : bool) (r : Running) : Running :=
  let t := tr r in
  let inner := "Error: Timeout connecting to SSE server " +:+ serverName t in
  let e := Error ("Failed to reconnect to SSE server: " +:+ inner) in
  {| tr := t;
     streams := streams r;
     timers := timers r;
     starts := List.firstn i (starts r) ++ List.skipn (S i) (starts r);
     trace := trace r ++
              if from_handler
              then match onerror t with Some _ => [NotifyError e] | None => [] end
              else [] |}.

(** One event; [None] when it cannot happen in that state. *)
Definition step (ev : event) (r : Running) : option Running :=
  match ev with
  | Start => Some (start_sync false r)
  | StreamOpen =>
      match eventSource (tr r) with
      | Some id => Some (stream_onopen id r)
      | None => None
      end
  | StreamError =>
      match eventSource (tr r) with
      | Some id => Some (stream_onerror id r)
      | None => None
      end
  | DelayElapsed i =>
      match timers r !! i with
      | Some _ =>
          Some (start_sync true
                  {| tr := tr r; streams := streams r;
                     timers := List.firstn i (timers r) ++ List.skipn (S i) (timers r);
                     starts := starts r; trace := trace r |})
      | None => None
      end
  | ConnectTimeout i =>
      match starts r !! i with
      | Some (_, from_handler) => Some (start_timeout i from_handler r)
      | None => None
      end
  end.

(** A sequence of events, from the left. *)
Fixpoint run (evs : list event) (r : Running) : option Running :=
  match evs with
  | [] => Some r
  | ev :: rest =>
      match step ev r with
      | Some r' => run rest r'
      | None => None
      end
  end.

(** A transport on which the client has just called [start()]. *)
Definition started (t : SSETransport) : Running :=
  start_sync false
    {| tr := t; streams := 0; timers := []; starts := []; trace := [] |}.

(** The delays slept, in order. *)
Definition waits (out : list output) : list Z :=
  omap (fun o => match o with Wait d => Some d | _ => None end) out.

(** The errors reported to the observer, in order. *)
Definition reported (out : list output) : list error :=
  omap (fun o => match o with NotifyError e => Some e | _ => None end) out.

(** The report made once the attempts are used up. *)
Definition fatal (t : SSETransport) : error :=
  Error ("SSE connection failed after "
         +:+ pretty (maxReconnectAttempts t) +:+ " attempts").

(** What holds of a transport in use at every moment: the constants of the
    class, a counter that reads 0 whenever a stream is live (every [start()]
    resets it), and a history in which every delay slept is the base delay
    and the attempts were never reported as used up. *)
Record steady (r : Running) : Prop := mkSteady {
  steady_max : maxReconnectAttempts (tr r) = 3%nat;
  steady_delay : reconnectDelay (tr r) = 1000;
  steady_counter : is_Some (eventSource (tr r)) -> reconnectAttempts (tr r) = 0%nat;
  steady_timers : Forall (fun d => d = 1000) (timers r);
  steady_waits : Forall (fun d => d = 1000) (waits (trace r));
  steady_reported : Forall (fun e => e <> fatal (tr r)) (reported (trace r));
}.

End Transport.

Import Transport.

(* ===================================================================== *)
(** ** Module state and the monad of [async] functions                    *)
(* ===================================================================== *)

(** [interface ServerDetail] *)
Record ServerDetail : Type := mkServerDetail {
  url : string;
  name : string;
}.

(** The two module-level maps, the transports created so far with their
    current fields, what they did to the outside, the rejections of promises
    that nobody awaited or caught, and [Date.now()]. *)
Record State : Type := mkState {
  sseServers : gmap string ServerDetail;
  connectedClients : gmap string Client;
  transports : gmap nat SSETransport;
  effects : list (nat * output);
  unhandled : list error;
  now : Z;
}.

Definition set_sseServers (f : gmap string ServerDetail -> gmap string ServerDetail)
    (s : State) : State :=
  {| sseServers := f (sseServers s); connectedClients := connectedClients s;
     transports := transports s; effects := effects s; unhandled := unhandled s; now := now s |}.

Definition set_connectedClients (f : gmap string Client -> gmap string Client)
    (s : State) : State :=
  {| sseServers := sseServers s; connectedClients := f (connectedClients s);
     transports := transports s; effects := effects s; unhandled := unhandled s; now := now s |}.

(** A network operation took [ms] milliseconds. *)
Definition elapse (ms : Z) (s : State) : State :=
  {| sseServers := sseServers s; connectedClients := connectedClients s;
     transports := transports s; effects := effects s; unhandled := unhandled s;
     now := now s + ms |}.

(** A computation that may throw; state changes made before a throw stay. *)
Definition M (A : Type) : Type := State -> (error + A) * State.

Definition ret {A : Type} (a : A) : M A := fun s => (inr a, s).

Definition throw {A : Type} (e : error) : M A := fun s => (inl e, s).

Definition bind {A B : Type} (m : M A) (k : A -> M B) : M B :=
  fun s =>
    match m s with
    | (inr a, s') => k a s'
    | (inl e, s') => (inl e, s')
    end.

(** [try { m } catch (error) { h error }] *)
Definition try_catch {A : Type} (m : M A) (h : error -> M A) : M A :=
  fun s =>
    match m s with
    | (inl e, s') => h e s'
    | done => done
    end.

Definition get : M State := fun s => (inr s, s).

Definition modify (f : State -> State) : M unit := fun s => (inr tt, f s).

(** [Date.now()] *)
Definition Date_now : M Z := fun s => (inr (now s), s).

Declare Scope js_scope.
Delimit Scope js_scope with js.
Notation "x <- m ;; k" := (bind m (fun x => k))
  (at level 100, m at next level, right associativity) : js_scope.
Notation "m ;;; k" := (bind m (fun _ => k))
  (at level 100, right associativity) : js_scope.
Local Open Scope js_scope.

(** An awaited operation of the outside world: it takes its time, then
    returns or throws. *)
Definition await {A : Type} (op : Z -> (error + A) * Z) : M A :=
  fun s =>
    let '(r, ms) := op (now s) in
    (r, elapse ms s).

(** The same for an operation with nothing to return. *)
Definition await_void (op : Z -> option error * Z) : M unit :=
  await (fun t =>
    let '(r, ms) := op t in
    (match r with Some e => inl e | None => inr tt end, ms)).

(* ===================================================================== *)
(** ** Registry: [registerSSEServer], [unregisterSSEServer]                *)
(* ===================================================================== *)

(** [(client as any)._transport?.close?.()] inside its [try].  [close] is
    [async]: the call returns a promise and never throws, so the [catch]
    around it never runs.  The promise is not awaited: the caller carries
    on, and when the promise rejects, the rejection is handled by nobody. *)
Definition close_transport_of (client : Client) (s : State) : State :=
  match _transport client with
  | Some l =>
      match transports s !! l with
      | Some t =>
          let '(promise, t', out) := Transport.close t in
          {| sseServers := sseServers s; connectedClients := connectedClients s;
             transports := <[l := t']> (transports s);
             effects := effects s ++ List.map (pair l) out;
             unhandled :=
               unhandled s ++ match promise with inl e => [e] | inr _ => [] end;
             now := now s |}
      | None => s
      end
  | None => s
  end.

(** The cleanup shared by the two functions: close the cached client of
    [name], if any, and drop it from the cache. *)
Definition evict (name : string) (s : State) : State :=
  match connectedClients s !! name with
  | Some client => set_connectedClients (delete name) (close_transport_of client s)
  | None => s
  end.

Definition has {V : Type} (m : gmap string V) (key : string) : bool :=
  match m !! key with Some _ => true | None => false end.

Definition registerSSEServer (name url : string) (force : bool) (s : State) : State :=
  if has (sseServers s) name && negb force then s
  else
    let s1 :=
      if has (sseServers s) name
      then evict name (set_sseServers (delete name) s)
      else s in
    set_sseServers (insert name {| url := url; name := name |}) s1.

Definition unregisterSSEServer (name : string) (s : State) : State :=
  if negb (has (sseServers s) name) then s
  else set_sseServers (delete name) (evict name s).

(* ===================================================================== *)
(** ** Client cache: [getClient]                                          *)
(* ===================================================================== *)

Section WithEnv.

Context (E : Env).

(** [new SSETransport(...)], [new Client(...)] and [client.connect]: the
    transport takes the next free place in the store; on success it is left
    as the SDK leaves it after the handshake, open and observed. *)
Definition connect_new (serverName url : string) : M Client :=
  s <- get ;;
  let l := fresh (dom (transports s)) in
  let t := Transport.new serverName url in
  modify (fun s =>
    {| sseServers := sseServers s; connectedClients := connectedClients s;
       transports := <[l := t]> (transports s);
       effects := effects s; unhandled := unhandled s; now := now s |}) ;;;
  await_void (fun t0 => Client_connect E t0 serverName url) ;;;
  modify (fun s =>
    {| sseServers := sseServers s; connectedClients := connectedClients s;
       transports :=
         <[l := set_connected true (set_eventSource (Some 0%nat)
                  (observe (Some Returns) (Some Returns) (Some Returns) t))]>
           (transports s);
       effects := effects s ++ [(l, OpenStream 0)];
       unhandled := unhandled s; now := now s |}) ;;;
  ret {| client_name := "test-client-" +:+ serverName; _transport := Some l |}.

Definition getClient (serverName : string) : M Client :=
  s <- get ;;
  match connectedClients s !! serverName with
  | Some client => ret client
  | None =>
      try_catch
        (s <- get ;;
         match sseServers s !! serverName with
         | None => throw (ServerNotFoundError serverName)
         | Some serverDetail =>
             client <- connect_new serverName (url serverDetail) ;;
             modify (set_connectedClients (insert serverName client)) ;;;
             ret client
         end)
        (fun error =>
           throw (ToolCallError serverName "connect" (error_text E error)))
  end.

End WithEnv.

(* ===================================================================== *)
(** ** The shapes of [../types/schemas.js]                                *)
(* ===================================================================== *)

Module CallToolInput.
Record t : Type := mk { server_name : string; tool_name : string; arguments : value }.
End CallToolInput.

(** [error] is [None] when the key is absent. *)
Module CallToolResponse.
Record t : Type := mk { result : value; error : option string; duration_ms : Z }.
End CallToolResponse.

(** [expected.type] is kept as the string the source compares. *)
Module Expected.
Record t : Type := mk { type : string; value : JS.value }.
End Expected.

Module TestCase.
Record t : Type := mk {
  name : string;
  description : string;
  tool : string;
  input : value;
  expected : option Expected.t;
}.
End TestCase.

Module TestResult.
Record t : Type := mk {
  name : string;
  passed : bool;
  message : string;
  duration_ms : Z;
  error : option string;
}.
End TestResult.

Module Summary.
Record t : Type := mk { total : nat; passed : nat; failed : nat; duration_ms : Z }.
End Summary.

Module RunTestsInput.
Record t : Type := mk { server_name : string; test_suite : option string }.
End RunTestsInput.

Module RunTestsResponse.
Record t : Type := mk { results : list TestResult.t; summary : Summary.t }.
End RunTestsResponse.

(* ===================================================================== *)
(** ** Invoker: [callTool]                                                *)
(* ===================================================================== *)

(** [item.type === 'text'] for an item that is not [null] *)
Definition is_text (item : value) : bool :=
  match prop item "type" with
  | Some (Str ty) => String.eqb ty "text"
  | _ => false
  end.

(** [items.find((item) => item.type === 'text')]; reading [type] off a
    [null] item throws a [TypeError]. *)
Fixpoint find_text (items : list value) : JS.error + option value :=
  match items with
  | [] => inr None
  | item :: rest =>
      match item with
      | Null => inl (Error "Cannot read properties of null (reading 'type')")
      | _ => if is_text item then inr (Some item) else find_text rest
      end
  end.

(** [response.content] when [response && response.content &&
    Array.isArray(response.content)] holds. *)
Definition content_array (response : value) : option (list value) :=
  if truthy response then
    match prop response "content" with
    | Some (Arr items) => Some items
    | _ => None
    end
  else None.

Section WithEnv.

Context (E : Env).

(** The lines of [callTool] between "Extract the result from the response"
    and the [return]: the value of [result]. *)
Definition normalize (response : value) : JS.error + value :=
  match content_array response with
  | Some items =>
      match find_text items with
      | inl e => inl e
      | inr (Some textContent) =>
          match prop textContent "text" with
          | Some text =>
              if truthy text then
                match JSON_parse E (to_string E text) with
                | Some parsed => inr parsed
                | None => inr text
                end
              else inr response
          | None => inr response
          end
      | inr None => inr response
      end
  | None => inr response
  end.

Definition lift {A : Type} (r : JS.error + A) : M A :=
  match r with inl e => throw e | inr a => ret a end.

(** The first statement of the [try]: the cached client after its health
    check, or a fresh one. *)
Definition live_client (server_name : string) : M Client :=
  s <- get ;;
  match connectedClients s !! server_name with
  | Some client =>
      try_catch
        (let target :=
           match sseServers s !! server_name with
           | Some d => url d
           | None => EmptyString
           end in
         await_void (fun t0 => fetch_HEAD E t0 target) ;;;
         ret client)
        (fun _ =>
           modify (set_connectedClients (delete server_name)) ;;;
           getClient E server_name)
  | None => getClient E server_name
  end.

(** The [try] block of [callTool]. *)
Definition callTool_try (input : CallToolInput.t) (startTime : Z)
    : M CallToolResponse.t :=
  client <- live_client (CallToolInput.server_name input) ;;
  response <- await (fun t0 =>
      Client_callTool E t0 client (CallToolInput.tool_name input)
        (CallToolInput.arguments input)) ;;
  t1 <- Date_now ;;
  let duration := t1 - startTime in
  result <- lift (normalize response) ;;
  ret {| CallToolResponse.result := result;
         CallToolResponse.error := None;
         CallToolResponse.duration_ms := duration |}.

(** The test of the [catch] block: the message suggests the server is down. *)
Definition connectivity_error (e : JS.error) : bool :=
  instanceof_Error e &&
  (includes (message E e) "ECONNREFUSED" ||
   includes (message E e) "timeout" ||
   includes (message E e) "not connected").

(** The [catch] block of [callTool]. *)
Definition callTool_catch (input : CallToolInput.t) (startTime : Z) (e : JS.error)
    : M CallToolResponse.t :=
  t1 <- Date_now ;;
  let duration := t1 - startTime in
  (if connectivity_error e
   then modify (set_connectedClients (delete (CallToolInput.server_name input)))
   else ret tt) ;;;
  ret {| CallToolResponse.result := Null;
         CallToolResponse.error := Some (error_text E e);
         CallToolResponse.duration_ms := duration |}.

Definition callTool (input : CallToolInput.t) : M CallToolResponse.t :=
  startTime <- Date_now ;;
  try_catch (callTool_try input startTime) (callTool_catch input startTime).

(* ===================================================================== *)
(** ** [listTools]                                                        *)
(* ===================================================================== *)

Definition listTools (serverName : string) : M (list string) :=
  try_catch
    (client <- getClient E serverName ;;
     await (fun t0 => Client_listTools E t0 client))
    (fun error =>
       throw (ToolCallError serverName "listTools" (error_text E error))).

(* ===================================================================== *)
(** ** Test runner: [runTestCase], [runTests]                             *)
(* ===================================================================== *)

(** [if (result.error)]: a missing or empty string is falsy. *)
Definition truthy_error (o : option string) : bool :=
  match o with Some m => nonempty m | None => false end.

(** The comparison of [runTestCase], by [expected.type]; [passed] starts
    as [false] and stays so when no branch applies. *)
Definition compare (expected : Expected.t) (actual : value) : M bool :=
  if String.eqb (Expected.type expected) "equals" then
    ret (String.eqb (JSON_stringify E actual)
                    (JSON_stringify E (Expected.value expected)))
  else if String.eqb (Expected.type expected) "contains" then
    let resultStr := JSON_stringify E actual in
    let expectedStr := JSON_stringify E (Expected.value expected) in
    ret (includes resultStr expectedStr)
  else if String.eqb (Expected.type expected) "regex" then
    regex <- lift (RegExp_new E (Expected.value expected)) ;;
    ret (regex (JSON_stringify E actual))
  else ret false.

(** The [try] block of [runTestCase]. *)
Definition runTestCase_try (serverName : string) (test : TestCase.t) (startTime : Z)
    : M TestResult.t :=
  result <- callTool {| CallToolInput.server_name := serverName;
                        CallToolInput.tool_name := TestCase.tool test;
                        CallToolInput.arguments := TestCase.input test |} ;;
  t1 <- Date_now ;;
  let duration := t1 - startTime in
  if truthy_error (CallToolResponse.error result) then
    ret {| TestResult.name := TestCase.name test;
           TestResult.passed := false;
           TestResult.message :=
             "Tool call failed: " +:+ default EmptyString (CallToolResponse.error result);
           TestResult.duration_ms := duration;
           TestResult.error := CallToolResponse.error result |}
  else
    match TestCase.expected test with
    | Some expected =>
        passed <- compare expected (CallToolResponse.result result) ;;
        ret {| TestResult.name := TestCase.name test;
               TestResult.passed := passed;
               TestResult.message :=
                 if passed then "Test passed"
                 else "Test failed: result did not match expected value";
               TestResult.duration_ms := duration;
               TestResult.error := None |}
    | None =>
        ret {| TestResult.name := TestCase.name test;
               TestResult.passed := true;
               TestResult.message := "Test passed";
               TestResult.duration_ms := duration;
               TestResult.error := None |}
    end.

Definition runTestCase (serverName : string) (test : TestCase.t) : M TestResult.t :=
  startTime <- Date_now ;;
  try_catch (runTestCase_try serverName test startTime)
    (fun error =>
       t1 <- Date_now ;;
       let duration := t1 - startTime in
       ret {| TestResult.name := TestCase.name test;
              TestResult.passed := false;
              TestResult.message := "Test failed with error: " +:+ error_text E error;
              TestResult.duration_ms := duration;
              TestResult.error := Some (error_text E error) |}).

(** The test synthesized for a discovered tool. *)
Definition basicTest (tool : string) : TestCase.t :=
  {| TestCase.name := "List " +:+ tool +:+ " schema";
     TestCase.description :=
       "Check that " +:+ tool +:+ " is available and has a valid schema";
     TestCase.tool := tool;
     TestCase.input := Obj [];
     TestCase.expected := None |}.

(** [for (const test of basicTests) results.push(await runTestCase(...))] *)
Fixpoint run_each (serverName : string) (tests : list TestCase.t)
    : M (list TestResult.t) :=
  match tests with
  | [] => ret []
  | test :: rest =>
      result <- runTestCase serverName test ;;
      results <- run_each serverName rest ;;
      ret (result :: results)
  end.

(** The [try] block of [runTests]. *)
Definition runTests_try (input : RunTestsInput.t) (startTime : Z)
    : M RunTestsResponse.t :=
  let server_name := RunTestsInput.server_name input in
  (match getServerProcess E server_name with
   | Some e => throw e
   | None => ret tt
   end) ;;;
  tools <- listTools server_name ;;
  let basicTests := List.map basicTest tools in
  results <- run_each server_name basicTests ;;
  let passed := List.length (List.filter TestResult.passed results) in
  let total := List.length results in
  let failed := (total - passed)%nat in
  t1 <- Date_now ;;
  let duration := t1 - startTime in
  ret {| RunTestsResponse.results := results;
         RunTestsResponse.summary :=
           {| Summary.total := total; Summary.passed := passed;
              Summary.failed := failed; Summary.duration_ms := duration |} |}.

(** The [catch] block of [runTests]. *)
Definition runTests_catch (startTime : Z) (e : JS.error) : M RunTestsResponse.t :=
  if instanceof_ServerNotFoundError e then throw e
  else
    t1 <- Date_now ;;
    let duration := t1 - startTime in
    ret {| RunTestsResponse.results :=
             [ {| TestResult.name := "Test suite setup";
                  TestResult.passed := false;
                  TestResult.message :=
                    "Failed to setup test suite: " +:+ error_text E e;
                  TestResult.duration_ms := duration;
                  TestResult.error := Some (error_text E e) |} ];
           RunTestsResponse.summary :=
             {| Summary.total := 1; Summary.passed := 0;
                Summary.failed := 1; Summary.duration_ms := duration |} |}.

Definition runTests (input : RunTestsInput.t) : M RunTestsResponse.t :=
  startTime <- Date_now ;;
  try_catch (runTests_try input startTime) (runTests_catch startTime).

End WithEnv.

(* ===================================================================== *)
(** ** A world for examples                                               *)
(* ===================================================================== *)

(** A server [calc] at [http://localhost:4000] with one tool, [add]; every
    network operation takes 7 ms. *)

Definition demo_parse (text : string) : option value :=
  if String.eqb text "5" then Some (Num 5)
  else if String.eqb text "null" then Some Null
  else if String.eqb text "true" then Some (Bool true)
  else None.

Definition quote : string := String (Ascii.ascii_of_nat 34) EmptyString.

Definition demo_stringify (v : value) : string :=
  match v with
  | Null => "null"
  | Bool true => "true"
  | Bool false => "false"
  | Num n => pretty n
  | Str s => quote +:+ s +:+ quote
  | Arr _ => "[]"
  | Obj _ => "{}"
  end.

Definition demo_env (call : (JS.error + value)) (probe : option JS.error)
    (process : option JS.error) : Env :=
  {| JSON_parse := demo_parse;
     JSON_stringify := demo_stringify;
     String_of := demo_stringify;
     RegExp_new := fun _ => inr (fun _ => true);
     ServerNotFoundError_message := fun server =>
       "Server '" +:+ server +:+ "' not found";
     ToolCallError_message := fun server tool reason =>
       "Error calling tool '" +:+ tool +:+ "' on server '" +:+ server
       +:+ "': " +:+ reason;
     getServerProcess := fun _ => process;
     fetch_HEAD := fun _ _ => (probe, 7);
     Client_connect := fun _ _ _ => (None, 7);
     Client_callTool := fun _ _ _ _ => (call, 7);
     Client_listTools := fun _ _ => (inr ["add"], 7) |}.

(** Nothing registered, nothing cached, the clock at 100. *)
Definition empty_state : State :=
  {| sseServers := ∅; connectedClients := ∅; transports := ∅;
     effects := []; unhandled := []; now := 100 |}.

(** [calc] registered and not yet used. *)
Definition calc_registered : State :=
  registerSSEServer "calc" "http://localhost:4000" false empty_state.

(** A transport of [calc], open on stream 0, observed by callbacks. *)
Definition calc_transport (c : callback) : SSETransport :=
  set_connected true (set_eventSource (Some 0%nat)
    (observe (Some c) (Some Returns) (Some Returns)
       (Transport.new "calc" "http://localhost:4000"))).

(** [calc] registered, with a cached client on transport 0. *)
Definition calc_cached (c : callback) : State :=
  {| sseServers := sseServers calc_registered;
     connectedClients :=
       {[ "calc" := {| client_name := "test-client-calc"; _transport := Some 0%nat |} ]};
     transports := {[ 0%nat := calc_transport c ]};
     effects := []; unhandled := []; now := 100 |}.

Definition add_2_3 : CallToolInput.t :=
  {| CallToolInput.server_name := "calc";
     CallToolInput.tool_name := "add";
     CallToolInput.arguments := Obj [("a", Num 2); ("b", Num 3)] |}.

(** Three callbacks that return normally. *)
Definition observed (t : SSETransport) : SSETransport :=
  observe (Some Returns) (Some Returns) (Some Returns) t.

(** Four stream errors in a row, each reconnect delay running out before
    the next error; the first stream had opened. *)
Definition four_errors : list event :=
  [StreamOpen; StreamError; DelayElapsed 0; StreamError; DelayElapsed 0;
   StreamError; DelayElapsed 0; StreamError].

(** The client that [getClient] makes for [calc], and the state it leaves
    behind when the handshake took 7 ms. *)
Definition calc_client : Client :=
  {| client_name := "test-client-calc"; _transport := Some 0%nat |}.

Definition calc_connected : State :=
  {| sseServers := sseServers calc_registered;
     connectedClients := {[ "calc" := calc_client ]};
     transports := {[ 0%nat := calc_transport Returns ]};
     effects := [(0%nat, OpenStream 0)];
     unhandled := [];
     now := 107 |}.

(** A tool response in the MCP format: an image item, then a text item. *)
Definition text_response (text : value) : value :=
  Obj [("content",
        Arr [Obj [("type", Str "image"); ("data", Str "AAAA")];
             Obj [("type", Str "text"); ("text", text)]])].

(** An item of a content list that [find] steps over. *)
Definition skipped (item : value) : Prop := item <> Null /\ is_text item = false.

(** A test whose expectation has a kind the runner does not know. *)
Definition startsWith_test : TestCase.t :=
  {| TestCase.name := "adds";
     TestCase.description := "2 + 3";
     TestCase.tool := "add";
     TestCase.input := Obj [("a", Num 2); ("b", Num 3)];
     TestCase.expected :=
       Some {| Expected.type := "startsWith"; Expected.value := Num 5 |} |}.

Definition run_calc : RunTestsInput.t :=
  {| RunTestsInput.server_name := "calc"; RunTestsInput.test_suite := None |}.


(* ===================================================================== *)
(** ** [SSETransport.send] and the [onmessage] handler                    *)
(* ===================================================================== *)

(** How a [start()] that a caller awaits ends when its stream fires no
    [onerror] during the wait: the stream fires [onopen], or it stays silent
    and the 5 s timer rejects.  A stream that fires [onerror] during the wait
    sets the error handler going; what the caller then finds depends on the
    course the machine above takes and is not given here. *)
Inductive start_result : Type :=
  | Opened
  | Silent.

(** How the [fetch] of [send] ends: a response with [ok], a response
    without it, or a rejection (network failure, or the 10 s abort). *)
Inductive post_result : Type :=
  | PostOk
  | PostStatus (status : nat) (statusText : string)
  | PostThrows (e : error).

(** [await this.start()], with [id] the number of the stream it creates. *)
Definition start_await (id : nat) (sr : start_result) (t : SSETransport)
    : (error + unit) * SSETransport * list output :=
  let t1 := set_eventSource (Some id) (set_reconnectAttempts 0 t) in
  match sr with
  | Opened => (inr tt, set_connected true t1, [OpenStream id])
  | Silent =>
      (inl (Error ("Timeout connecting to SSE server " +:+ serverName t)),
       t1, [OpenStream id])
  end.

(** The text of an error inside a template string.  The errors that reach
    it are plain [Error]s, which print as [Error: message]. *)
Definition error_string (E : Env) (e : error) : string :=
  match e with
  | Thrown v => to_string E v
  | _ => "Error: " +:+ message E e
  end.

(** The test of the [catch] block of [send]. *)
Definition connection_error (E : Env) (e : error) : bool :=
  instanceof_Error e &&
  (includes (message E e) "ECONNREFUSED" ||
   includes (message E e) "timeout" ||
   includes (message E e) "network" ||
   includes (message E e) "failed").

(** What a [send] comes to: the settled promise, the transport afterwards,
    what was done to streams and observer, and whether [fetch] was called. *)
Record sent : Type := mkSent {
  settled : error + unit;
  after : SSETransport;
  did : list output;
  posted : bool;
}.

(** The [try] block of [send]. *)
Definition send_try (E : Env) (id : nat) (sr : start_result) (po : post_result)
    (t : SSETransport) : sent :=
  let '(r, t1, out) :=
    if connected t then (inr tt, t, [])
    else
      match start_await id sr t with
      | (inl reconnectError, t', o) =>
          (inl (Error ("Failed to reconnect to SSE server: "
                       +:+ error_string E reconnectError)), t', o)
      | started => started
      end in
  match r with
  | inl e => {| settled := inl e; after := t1; did := out; posted := false |}
  | inr _ =>
      match po with
      | PostOk => {| settled := inr tt; after := t1; did := out; posted := true |}
      | PostStatus status statusText =>
          {| settled :=
               inl (Error ("HTTP error when sending to " +:+ serverName t1 +:+ ": "
                           +:+ pretty status +:+ " " +:+ statusText));
             after := t1; did := out; posted := true |}
      | PostThrows e => {| settled := inl e; after := t1; did := out; posted := true |}
      end
  end.

(** [async send(message)].  The stream is taken to fire nothing else while
    [send] runs: no error after it opened, none during the request. *)
Definition send (E : Env) (id : nat) (sr : start_result) (po : post_result)
    (t : SSETransport) : sent :=
  let r := send_try E id sr po t in
  match settled r with
  | inr _ => r
  | inl e =>
      let t2 := if connection_error E e then set_connected false (after r) else after r in
      let '(e', told) := report t2 e in
      {| settled := inl e'; after := t2; did := did r ++ told; posted := posted r |}
  end.

(** What the [onmessage] handler of the stream hands to the observer. *)
Inductive inbound : Type :=
  | ToMessage (v : value)
  | ToError (e : error).

(** The [onmessage] handler of the stream for a frame [data];
    [syntaxError] is the message of the [SyntaxError] of [JSON.parse]. *)
Definition stream_onmessage (E : Env) (syntaxError : string) (data : string)
    (t : SSETransport) : list inbound :=
  match JSON_parse E data with
  | None =>
      if includes data "connected" then []
      else match onerror t with
           | Some _ => [ToError (Error syntaxError)]
           | None => []
           end
  | Some parsed =>
      match onmessage t with
      | None => []
      | Some Returns => [ToMessage parsed]
      | Some (Throws e) =>
          ToMessage parsed ::
          match onerror t with
          | Some _ => if instanceof_Error e then [ToError e] else []
          | None => []
          end
      end
  end.

(* ===================================================================== *)
(** ** Vocabulary of the properties                                       *)
(* ===================================================================== *)

(** Every cached client belongs to a registered name. *)
Definition cached_registered (s : State) : Prop :=
  forall n, is_Some (connectedClients s !! n) -> is_Some (sseServers s !! n).

(** No network operation of the world takes a negative time. *)
Definition punctual (E : Env) : Prop :=
  (forall t u, 0 <= (fetch_HEAD E t u).2) /\
  (forall t n u, 0 <= (Client_connect E t n u).2) /\
  (forall t c tool a, 0 <= (Client_callTool E t c tool a).2) /\
  (forall t c, 0 <= (Client_listTools E t c).2).

(** What the operations that go through the cache may do to the state: the
    registry stays, the cache gains clients of registered names only, and
    the clock does not run backwards in a punctual world. *)
Definition settles (E : Env) (s s' : State) : Prop :=
  sseServers s' = sseServers s /\
  (forall n, is_Some (connectedClients s' !! n) ->
             is_Some (connectedClients s !! n) \/ is_Some (sseServers s !! n)) /\
  (punctual E -> now s <= now s').

(** A computation whose every run is related by [R]. *)
Definition keeps {A : Type} (R : State -> State -> Prop) (m : M A) : Prop :=
  forall s r s', m s = (r, s') -> R s s'.

(** The state in which [getClient] leaves a registered, uncached name whose
    handshake succeeded after [ms] milliseconds. *)
Definition connected_state (serverName : string) (ms : Z) (s : State) : State :=
  let l := fresh (dom (transports s)) in
  {| sseServers := sseServers s;
     connectedClients :=
       <[serverName := {| client_name := "test-client-" +:+ serverName;
                          _transport := Some l |}]> (connectedClients s);
     transports :=
       <[l := set_connected true (set_eventSource (Some 0%nat)
                (observe (Some Returns) (Some Returns) (Some Returns)
                   (Transport.new serverName
                      (default EmptyString (url <$> sseServers s !! serverName)))))]>
         (transports s);
     effects := effects s ++ [(l, OpenStream 0)];
     unhandled := unhandled s;
     now := now s + ms |}.

(** The state in which a failed handshake leaves the same name. *)
Definition refused_state (serverName : string) (ms : Z) (s : State) : State :=
  let l := fresh (dom (transports s)) in
  {| sseServers := sseServers s;
     connectedClients := connectedClients s;
     transports :=
       <[l := Transport.new serverName
                (default EmptyString (url <$> sseServers s !! serverName))]>
         (transports s);
     effects := effects s;
     unhandled := unhandled s;
     now := now s + ms |}.

(** The name of the test synthesized for a tool. *)
Definition basicTest_name (tool : string) : string := "List " +:+ tool +:+ " schema".

(** A transport in use is between attempts when no stream is live and one
    reconnect delay is running, and on a stream when one is live and no
    delay is running. *)
Definition sequential (r : Running) : Prop :=
  match eventSource (tr r) with
  | Some _ => timers r = []
  | None => exists d, timers r = [d]
  end.

(** No event of the list is a [start()] from outside the error handler. *)
Definition unprompted (evs : list event) : Prop :=
  Forall (fun ev => ev <> Start) evs.

(** A world for examples in which the handshake fails. *)
Definition refusing_env : Env :=
  {| JSON_parse := demo_parse;
     JSON_stringify := demo_stringify;
     String_of := demo_stringify;
     RegExp_new := fun _ => inl (Error "Invalid regular expression");
     ServerNotFoundError_message := fun server =>
       "Server '" +:+ server +:+ "' not found";
     ToolCallError_message := fun server tool reason =>
       "Error calling tool '" +:+ tool +:+ "' on server '" +:+ server
       +:+ "': " +:+ reason;
     getServerProcess := fun _ => None;
     fetch_HEAD := fun _ _ => (Some (Error "fetch failed"), 7);
     Client_connect := fun _ _ _ => (Some (Error "connect ECONNREFUSED 127.0.0.1:4000"), 7);
     Client_callTool := fun _ _ _ _ => (inr (Num 5), 7);
     Client_listTools := fun _ _ => (inr ["add"; "sub"], 7) |}.

(** The result of a test that was compared with its expectation, or that
    had none ([passed] is then [true]). *)
Definition compared (test : TestCase.t) (passed : bool) (duration : Z) : TestResult.t :=
  {| TestResult.name := TestCase.name test;
     TestResult.passed := passed;
     TestResult.message :=
       if passed then "Test passed"
       else "Test failed: result did not match expected value";
     TestResult.duration_ms := duration;
     TestResult.error := None |}.

(** The result of a test whose run threw [e]. *)
Definition crashed (E : Env) (test : TestCase.t) (e : JS.error) (duration : Z)
    : TestResult.t :=
  {| TestResult.name := TestCase.name test;
     TestResult.passed := false;
     TestResult.message := "Test failed with error: " +:+ error_text E e;
     TestResult.duration_ms := duration;
     TestResult.error := Some (error_text E e) |}.

(** A result is consistent when it passed without an error or failed with
    one. *)
Definition pass_or_error (r : TestResult.t) : Prop :=
  TestResult.passed r = true /\ TestResult.error r = None \/
  TestResult.passed r = false /\ is_Some (TestResult.error r).

(** A test with an [equals] expectation on the number 5. *)
Definition equals_5_test : TestCase.t :=
  {| TestCase.name := "adds";
     TestCase.description := "2 + 3";
     TestCase.tool := "add";
     TestCase.input := Obj [("a", Num 2); ("b", Num 3)];
     TestCase.expected :=
       Some {| Expected.type := "equals"; Expected.value := Num 5 |} |}.

(* ===================================================================== *)
(** * Properties                                                          *)
(* ===================================================================== *)

(** ** Registry *)

Lemma has_true {V : Type} (m : gmap string V) (key : string) :
  has m key = true <-> is_Some (m !! key).
Proof.
  unfold has. destruct (m !! key) as [v|]; split; intros H; try done.
Qed.

Lemma evict_sseServers (n : string) (s : State) :
  sseServers (evict n s) = sseServers s.
Proof.
  unfold evict, close_transport_of.
  destruct (connectedClients s !! n) as [c|]; [|done].
  destruct (_transport c) as [l|]; [|done].
  destruct (transports s !! l) as [t|]; [|done].
  by destruct (Transport.close t) as [[? ?] ?].
Qed.

Lemma evict_now (n : string) (s : State) : now (evict n s) = now s.
Proof.
  unfold evict, close_transport_of.
  destruct (connectedClients s !! n) as [c|]; [|done].
  destruct (_transport c) as [l|]; [|done].
  destruct (transports s !! l) as [t|]; [|done].
  by destruct (Transport.close t) as [[? ?] ?].
Qed.

Lemma evict_connectedClients (n : string) (s : State) :
  connectedClients (evict n s) = delete n (connectedClients s).
Proof.
  unfold evict, close_transport_of.
  destruct (connectedClients s !! n) as [c|] eqn:Hc.
  - destruct (_transport c) as [l|]; [|done].
    destruct (transports s !! l) as [t|]; [|done].
    by destruct (Transport.close t) as [[? ?] ?].
  - symmetry. by apply delete_id.
Qed.

Lemma evict_closes (n : string) (s : State) (client : Client) (l : nat)
    (t : SSETransport) :
  connectedClients s !! n = Some client ->
  _transport client = Some l ->
  transports s !! l = Some t ->
  transports (evict n s) = <[l := (Transport.close t).1.2]> (transports s) /\
  effects (evict n s) = effects s ++ List.map (pair l) (Transport.close t).2.
Proof.
  intros Hc Hl Ht. unfold evict, close_transport_of.
  rewrite Hc, Hl, Ht.
  by destruct (Transport.close t) as [[? ?] ?].
Qed.

Lemma evict_nothing_cached (n : string) (s : State) :
  connectedClients s !! n = None -> evict n s = s.
Proof. intros Hc. unfold evict. by rewrite Hc. Qed.

(** C5. Registering again, with [force = false], a name that is already
    registered changes nothing: the stored url stays, also when the new url
    differs, and the cached client is neither closed nor dropped. *)
Theorem registerSSEServer_registered_noop (n url' : string) (s : State) :
  is_Some (sseServers s !! n) ->
  registerSSEServer n url' false s = s.
Proof.
  intros Hreg. apply has_true in Hreg.
  unfold registerSSEServer. by rewrite Hreg.
Qed.

Lemma registerSSEServer_registered_noop_witness :
  is_Some (sseServers (calc_cached Returns) !! "calc") /\
  registerSSEServer "calc" "http://localhost:9999" false (calc_cached Returns)
  = calc_cached Returns.
Proof.
  assert (H : is_Some (sseServers (calc_cached Returns) !! "calc")).
  { apply has_true. reflexivity. }
  split; [exact H|].
  exact (registerSSEServer_registered_noop "calc" "http://localhost:9999"
           (calc_cached Returns) H).
Defined.

(** [unregister] of a name that was never registered changes nothing. *)
Lemma unregisterSSEServer_unknown (n : string) (s : State) :
  sseServers s !! n = None -> unregisterSSEServer n s = s.
Proof. intros H. unfold unregisterSSEServer, has. by rewrite H. Qed.

(** ** Transport: [close()] *)

Lemma close_state (t : SSETransport) :
  (Transport.close t).1.2 =
  match eventSource t with
  | Some _ => set_connected false (set_eventSource None t)
  | None => t
  end.
Proof.
  unfold Transport.close.
  destruct (eventSource t) as [id|]; cbn;
    destruct (onclose t) as [[|e]|]; cbn; try done;
    by destruct (report _ e).
Qed.

Lemma close_eventSource (t : SSETransport) :
  eventSource (Transport.close t).1.2 = None.
Proof. rewrite close_state. by destruct (eventSource t) eqn:H. Qed.

Lemma close_onclose (t : SSETransport) :
  onclose (Transport.close t).1.2 = onclose t.
Proof. rewrite close_state. by destruct (eventSource t). Qed.

Lemma close_closures (t : SSETransport) :
  closures (Transport.close t).2 = if onclose t is Some _ then 1%nat else 0%nat.
Proof.
  unfold Transport.close.
  destruct (eventSource t) as [id|]; cbn;
    destruct (onclose t) as [[|e]|]; cbn; try done.
  all: unfold report; cbn; destruct (onerror t) as [[|e']|];
    destruct (instanceof_Error e); reflexivity.
Qed.

Lemma close_releases (t : SSETransport) :
  releases (Transport.close t).2 = if eventSource t is Some _ then 1%nat else 0%nat.
Proof.
  unfold Transport.close.
  destruct (eventSource t) as [id|]; cbn;
    destruct (onclose t) as [[|e]|]; cbn; try done.
  all: unfold report; cbn; destruct (onerror t) as [[|e']|];
    destruct (instanceof_Error e); reflexivity.
Qed.

Lemma close_times_S (n : nat) (t : SSETransport) :
  close_times (S n) t =
  ((close_times n (Transport.close t).1.2).1,
   (Transport.close t).2 ++ (close_times n (Transport.close t).1.2).2).
Proof.
  cbn [close_times]. destruct (Transport.close t) as [[r t1] out1]. cbn.
  by destruct (close_times n t1).
Qed.

Lemma closures_app (a b : list output) :
  closures (a ++ b) = (closures a + closures b)%nat.
Proof. unfold closures. by rewrite List.filter_app, List.length_app. Qed.

Lemma releases_app (a b : list output) :
  releases (a ++ b) = (releases a + releases b)%nat.
Proof. unfold releases. by rewrite List.filter_app, List.length_app. Qed.

Lemma close_twice (t : SSETransport) :
  (Transport.close (Transport.close t).1.2).1.2 = (Transport.close t).1.2.
Proof. rewrite (close_state (Transport.close t).1.2). by rewrite close_eventSource. Qed.

Lemma close_times_closures (n : nat) (t : SSETransport) :
  closures (close_times n t).2 = if onclose t is Some _ then n else 0%nat.
Proof.
  revert t. induction n as [|n IH]; intros t.
  - by destruct (onclose t).
  - rewrite close_times_S. cbn [snd]. rewrite closures_app, IH, close_closures, close_onclose.
    by destruct (onclose t).
Qed.

Lemma close_times_closed (n : nat) (t : SSETransport) :
  eventSource t = None ->
  (close_times n t).1 = t /\ releases (close_times n t).2 = 0%nat.
Proof.
  revert t. induction n as [|n IH]; intros t Hes; [done|].
  rewrite close_times_S. cbn [fst snd].
  assert (Hst : (Transport.close t).1.2 = t) by (by rewrite close_state, Hes).
  rewrite releases_app, close_releases, Hes, Hst.
  destruct (IH t Hes) as [-> ->]. done.
Qed.

(** C8 as the code has it.  [close()] is idempotent on the transport: after
    one call a further call changes no field and releases no stream, and the
    stream is released at most once over any number of calls.  The observer's
    closure callback, when set, is called by every [close()]: [n] calls make
    [n] notifications. *)
Theorem close_idempotent_notifies_each_time (t : SSETransport) (n : nat) :
  (Transport.close (Transport.close t).1.2).1.2 = (Transport.close t).1.2 /\
  (close_times (S n) t).1 = (Transport.close t).1.2 /\
  releases (close_times (S n) t).2 = (if eventSource t is Some _ then 1%nat else 0%nat) /\
  closures (close_times n t).2 = (if onclose t is Some _ then n else 0%nat).
Proof.
  split; [apply close_twice|].
  rewrite close_times_S. cbn [fst snd].
  destruct (close_times_closed n _ (close_eventSource t)) as [H1 H2].
  rewrite releases_app, close_releases, H1, H2.
  split; [done|]. split; [lia|]. apply close_times_closures.
Qed.

(** C8, as stated, fails: two [close()] calls on an open, observed transport
    call the closure callback twice, not once. *)
Lemma close_twice_notifies_twice :
  closures (close_times 2 (calc_transport Returns)).2 = 2%nat /\
  closures (close_times 2 (calc_transport Returns)).2 <> 1%nat.
Proof. split; [reflexivity | discriminate]. Qed.

(** ** Registry: forced registration and [close()] *)

Lemma evict_unhandled (n : string) (s : State) (client : Client) (l : nat)
    (t : SSETransport) :
  connectedClients s !! n = Some client ->
  _transport client = Some l ->
  transports s !! l = Some t ->
  unhandled (evict n s) =
  unhandled s ++ match (Transport.close t).1.1 with inl e => [e] | inr _ => [] end.
Proof.
  intros Hc Hl Ht. unfold evict, close_transport_of.
  rewrite Hc, Hl, Ht.
  by destruct (Transport.close t) as [[? ?] ?].
Qed.

(** What a forced registration of a registered name does, in general: the
    new registration takes the place of the old one, the cached client is
    dropped, its transport has gone through [close()] (no stream left, the
    stream it held released, the closure callback called when set), and a
    rejection of [close()] is left unhandled. *)
Lemma registerSSEServer_force_closes (n url' : string) (s : State) :
  is_Some (sseServers s !! n) ->
  let s' := registerSSEServer n url' true s in
  sseServers s' = <[n := {| url := url'; name := n |}]> (sseServers s) /\
  connectedClients s' = delete n (connectedClients s) /\
  now s' = now s /\
  (forall client l t,
     connectedClients s !! n = Some client ->
     _transport client = Some l ->
     transports s !! l = Some t ->
     (exists t', transports s' = <[l := t']> (transports s) /\
                 eventSource t' = None /\
                 (is_Some (eventSource t) -> connected t' = false)) /\
     (forall id, eventSource t = Some id -> (l, CloseStream id) ∈ effects s') /\
     (is_Some (onclose t) -> (l, NotifyClose) ∈ effects s') /\
     (forall e, onclose t = Some (Throws e) -> onerror t = None ->
                unhandled s' = unhandled s ++ [e])).
Proof.
  intros Hreg s'. subst s'. unfold registerSSEServer.
  apply has_true in Hreg. rewrite Hreg. cbn [negb andb].
  set (s0 := set_sseServers (delete n) s).
  cbn [set_sseServers sseServers connectedClients now transports effects unhandled].
  rewrite evict_sseServers, evict_connectedClients, evict_now.
  split; [subst s0; cbn; apply insert_delete_eq|].
  split; [done|]. split; [done|].
  intros client l t Hc Hl Ht.
  destruct (evict_closes n s0 client l t Hc Hl Ht) as [Htr Hef].
  pose proof (evict_unhandled n s0 client l t Hc Hl Ht) as Hun.
  rewrite Hef, Hun. subst s0. cbn [set_sseServers effects unhandled].
  split; [|split; [|split]].
  - exists (Transport.close t).1.2. split; [exact Htr|].
    split; [apply close_eventSource|].
    intros [id Hid]. rewrite close_state, Hid. done.
  - intros id Hid. apply elem_of_app. right. apply list_elem_of_fmap.
    exists (CloseStream id). split; [done|].
    unfold Transport.close. rewrite Hid. cbn.
    destruct (onclose t) as [[|e]|]; cbn; [| |].
    + set_solver.
    + destruct (report _ e). set_solver.
    + set_solver.
  - intros [cb Hcb]. apply elem_of_app. right. apply list_elem_of_fmap.
    exists NotifyClose. split; [done|].
    unfold Transport.close.
    destruct (eventSource t) as [id|]; cbn; rewrite Hcb;
      destruct cb as [|e]; cbn; try set_solver;
      destruct (report _ e); set_solver.
  - intros e Hcb Herr. unfold Transport.close.
    destruct (eventSource t) as [id|]; cbn; rewrite Hcb; unfold report; cbn;
      by rewrite Herr.
Qed.


(** ** Transport: reconnection *)

Arguments waits : simpl never.
Arguments reported : simpl never.

(** The delay computed by the error handler once the counter reads [k + 1]
    is the base delay doubled [k] times, and it grows with the counter. *)
Lemma backoff_formula (t : SSETransport) (k : nat) :
  backoff (set_reconnectAttempts (S k) t) = reconnectDelay t * 2 ^ Z.of_nat k.
Proof. unfold backoff. cbn [reconnectAttempts reconnectDelay set_reconnectAttempts]. f_equal. f_equal. lia. Qed.

Lemma backoff_monotone (t : SSETransport) (j k : nat) :
  0 <= reconnectDelay t -> (j <= k)%nat ->
  backoff (set_reconnectAttempts (S j) t) <= backoff (set_reconnectAttempts (S k) t).
Proof.
  intros Hd Hjk. rewrite !backoff_formula.
  apply Z.mul_le_mono_nonneg_l; [done|].
  apply Z.pow_le_mono_r; lia.
Qed.

Lemma waits_app (a b : list output) : waits (a ++ b) = waits a ++ waits b.
Proof. apply omap_app. Qed.

Lemma reported_app (a b : list output) : reported (a ++ b) = reported a ++ reported b.
Proof. apply omap_app. Qed.

Lemma Forall_remove {A : Type} (P : A -> Prop) (i : nat) (l : list A) :
  Forall P l -> Forall P (List.firstn i l ++ List.skipn (S i) l).
Proof.
  intros H. apply Forall_app. split.
  - by apply Forall_take.
  - by apply Forall_drop.
Qed.

Lemma steady_started (t : SSETransport) :
  maxReconnectAttempts t = 3%nat -> reconnectDelay t = 1000 -> steady (started t).
Proof.
  intros Hm Hd. split; cbn; try done; constructor.
Qed.

Lemma steady_start_sync (b : bool) (r : Running) : steady r -> steady (start_sync b r).
Proof.
  intros [Hm Hd Hc Ht Hw Hr]. split; cbn; try done.
  - rewrite waits_app. change (waits [OpenStream (streams r)]) with (@nil Z).
    by rewrite app_nil_r.
  - rewrite reported_app. change (reported [OpenStream (streams r)]) with (@nil error).
    by rewrite app_nil_r.
Qed.

Lemma steady_step (ev : event) (r r' : Running) :
  steady r -> step ev r = Some r' -> steady r'.
Proof.
  intros Hr Hstep. destruct ev as [| | |i|i]; cbn in Hstep.
  - inversion Hstep; subst. by apply steady_start_sync.
  - destruct (eventSource (tr r)) as [id|] eqn:Hes; [|done].
    inversion Hstep; subst. destruct Hr as [Hm Hd Hc Ht Hw Hrep].
    split; cbn; try done.
  - destruct (eventSource (tr r)) as [id|] eqn:Hes; [|done].
    inversion Hstep; subst. destruct Hr as [Hm Hd Hc Ht Hw Hrep].
    assert (H0 : reconnectAttempts (tr r) = 0%nat) by (apply Hc; by rewrite Hes).
    unfold stream_onerror. rewrite H0, Hm, Hes. cbn [Nat.ltb Nat.leb].
    assert (Hb : backoff (set_reconnectAttempts 1 (tr r)) = 1000).
    { rewrite backoff_formula, Hd. reflexivity. }
    rewrite Hb.
    split; cbn; try done.
    + apply Forall_app. split; [done|]. by constructor.
    + rewrite waits_app. apply Forall_app. split; [done|]. by constructor.
    + rewrite reported_app. change (reported [CloseStream id; Wait 1000]) with (@nil error).
      by rewrite app_nil_r.
  - destruct (timers r !! i) as [d|] eqn:Hd'; [|done].
    inversion Hstep; subst. apply steady_start_sync.
    destruct Hr as [Hm Hd Hc Ht Hw Hrep].
    split; cbn; try done. by apply Forall_remove.
  - destruct (starts r !! i) as [[id b]|] eqn:Hs; [|done].
    inversion Hstep; subst. destruct Hr as [Hm Hd Hc Ht Hw Hrep].
    split; cbn; try done.
    + rewrite waits_app. apply Forall_app. split; [done|].
      destruct b; [|constructor]. destruct (onerror (tr r)); constructor.
    + rewrite reported_app. apply Forall_app. split; [done|].
      destruct b; [|constructor].
      destruct (onerror (tr r)); constructor; [|constructor].
      unfold fatal. discriminate.
Qed.

(** A transport that is started without a stream in place and on which
    only the error handler calls [start()] again: however many stream errors
    it meets, every reconnect delay is 1 s and the observer is never told
    that the attempts are used up; the counter that the error handler
    increments is set back to 0 by the [start()] it then calls. *)
Lemma reconnect_never_gives_up (t : SSETransport) (evs : list event) (r : Running) :
  maxReconnectAttempts t = 3%nat -> reconnectDelay t = 1000 ->
  eventSource t = None ->
  unprompted evs ->
  run evs (started t) = Some r ->
  Forall (fun d => d = 1000) (waits (trace r)) /\
  (fatal t ∉ reported (trace r)) /\
  (reconnectAttempts (tr r) <= 1)%nat.
Proof.
  intros Hm Hd _ _ Hrun.
  assert (Hinv : steady r /\ maxReconnectAttempts (tr r) = maxReconnectAttempts t
                 /\ (reconnectAttempts (tr r) <= 1)%nat).
  { assert (H0 : steady (started t) /\
                 maxReconnectAttempts (tr (started t)) = maxReconnectAttempts t /\
                 (reconnectAttempts (tr (started t)) <= 1)%nat).
    { split; [by apply steady_started|]. split; [done|]. cbn. lia. }
    revert H0 Hrun. generalize (started t). clear Hd.
    induction evs as [|ev evs IH]; intros r0 H0 Hrun; cbn in Hrun.
    - by inversion Hrun; subst.
    - destruct (step ev r0) as [r1|] eqn:Hstep; [|done].
      apply (IH r1); [|done].
      destruct H0 as (Hs & Hmax & Hle).
      split; [by eapply steady_step|].
      destruct Hs as [Hm' Hd' Hc Ht Hw Hrep].
      destruct ev as [| | |i|i]; cbn in Hstep.
      + inversion Hstep; subst. cbn. split; [done|lia].
      + destruct (eventSource (tr r0)); [|done]. inversion Hstep; subst. by cbn.
      + destruct (eventSource (tr r0)) as [id|] eqn:Hes; [|done].
        inversion Hstep; subst. unfold stream_onerror.
        assert (H0 : reconnectAttempts (tr r0) = 0%nat) by (apply Hc; by eexists).
        rewrite H0, Hm'. cbn. split; [done|lia].
      + destruct (timers r0 !! i); [|done]. inversion Hstep; subst. cbn.
        split; [done|lia].
      + destruct (starts r0 !! i) as [[? ?]|]; [|done]. inversion Hstep; subst. by cbn. }
  destruct Hinv as ([Hm' Hd' Hc Ht Hw Hrep] & Hmax & Hle).
  split; [done|]. split; [|done].
  intros Hin. rewrite Forall_forall in Hrep. apply (Hrep _ Hin).
  unfold fatal. by rewrite Hmax.
Qed.

(** C2 on the code, at four stream errors in a row.  The claim has the
    delays 1 s, 2 s, 4 s and the fourth error reported as fatal.  The source
    sleeps 1 s each of the four times, reports nothing to the observer, and
    after the fourth error is again waiting 1 s to reconnect, its counter at
    1 of 3. *)
Theorem four_stream_errors_keep_retrying :
  exists r : Running,
    run four_errors (started (observed (Transport.new "calc" "http://localhost:4000")))
      = Some r /\
    waits (trace r) = [1000; 1000; 1000; 1000] /\
    reported (trace r) = [] /\
    reconnectAttempts (tr r) = 1%nat /\
    timers r = [1000].
Proof. eexists. split; [vm_compute; reflexivity|]. vm_compute. repeat split. Qed.

(** ** Invoker: normalization of the response *)

Lemma is_text_not_null (item : value) : is_text item = true -> item <> Null.
Proof. by intros H ->. Qed.

Lemma find_text_first (pre post : list value) (tc : value) :
  Forall skipped pre -> is_text tc = true ->
  find_text (pre ++ tc :: post) = inr (Some tc).
Proof.
  intros Hpre Htc. induction Hpre as [|item pre [Hnn Hnt] _ IH]; cbn.
  - rewrite Htc. by destruct tc.
  - rewrite Hnt. by destruct item.
Qed.

Lemma find_text_none (items : list value) :
  Forall skipped items -> find_text items = inr None.
Proof.
  intros H. induction H as [|item items [Hnn Hnt] _ IH]; cbn; [done|].
  rewrite Hnt. by destruct item.
Qed.

Lemma normalize_plain (E : Env) (response : value) :
  content_array response = None -> normalize E response = inr response.
Proof. intros H. unfold normalize. by rewrite H. Qed.

Lemma normalize_falsy_text (E : Env) (response tc : value) (pre post : list value)
    (text : option value) :
  content_array response = Some (pre ++ tc :: post) ->
  Forall skipped pre -> is_text tc = true ->
  prop tc "text" = text -> truthy_opt text = false ->
  normalize E response = inr response.
Proof.
  intros Hc Hpre Htc Htext Hfalsy. unfold normalize.
  rewrite Hc, (find_text_first pre post tc Hpre Htc), Htext.
  destruct text as [v|]; [|done]. cbn in Hfalsy. by rewrite Hfalsy.
Qed.

(** C7 as the code has it.  Normalization takes the first item of type
    [text] of a content list and, when the text of that item is not empty,
    parses it as JSON, falling back to the text itself when that fails; when
    that text is empty or missing, the response comes back as it is.  A
    value that carries no content array comes back as it is, so normalizing
    it again changes nothing. *)
Theorem normalize_extracts_text_keeps_plain (E : Env) :
  (forall response pre tc post text,
     content_array response = Some (pre ++ tc :: post) ->
     Forall skipped pre -> is_text tc = true ->
     prop tc "text" = Some text -> truthy text = true ->
     normalize E response =
     inr (match JSON_parse E (to_string E text) with
          | Some parsed => parsed
          | None => text
          end)) /\
  (forall response pre tc post,
     content_array response = Some (pre ++ tc :: post) ->
     Forall skipped pre -> is_text tc = true ->
     truthy_opt (prop tc "text") = false ->
     normalize E response = inr response) /\
  (forall response,
     content_array response = None ->
     normalize E response = inr response /\
     match normalize E response with
     | inr once => normalize E once = inr response
     | inl _ => False
     end).
Proof.
  split; [|split].
  - intros response pre tc post text Hc Hpre Htc Htext Htruthy. unfold normalize.
    rewrite Hc, (find_text_first pre post tc Hpre Htc), Htext, Htruthy.
    by destruct (JSON_parse E (to_string E text)).
  - intros response pre tc post Hc Hpre Htc Hfalsy.
    by eapply normalize_falsy_text.
  - intros response Hc. rewrite (normalize_plain E response Hc). split; [done|].
    by apply normalize_plain.
Qed.

Lemma normalize_extracts_text_keeps_plain_witness :
  normalize (demo_env (inr Null) None None) (text_response (Str "5")) = inr (Num 5) /\
  normalize (demo_env (inr Null) None None) (text_response (Str "five"))
    = inr (Str "five") /\
  normalize (demo_env (inr Null) None None) (text_response (Num 0))
    = inr (text_response (Num 0)) /\
  normalize (demo_env (inr Null) None None) (Obj [("sum", Num 5)])
    = inr (Obj [("sum", Num 5)]).
Proof.
  pose proof (normalize_extracts_text_keeps_plain (demo_env (inr Null) None None))
    as (Htext & Hfalsy & Hplain).
  split; [|split; [|split]].
  - apply (Htext (text_response (Str "5"))
             [Obj [("type", Str "image"); ("data", Str "AAAA")]]
             (Obj [("type", Str "text"); ("text", Str "5")]) [] (Str "5"));
      try reflexivity.
    repeat constructor. discriminate.
  - apply (Htext (text_response (Str "five"))
             [Obj [("type", Str "image"); ("data", Str "AAAA")]]
             (Obj [("type", Str "text"); ("text", Str "five")]) [] (Str "five"));
      try reflexivity.
    repeat constructor. discriminate.
  - apply (Hfalsy (text_response (Num 0))
             [Obj [("type", Str "image"); ("data", Str "AAAA")]]
             (Obj [("type", Str "text"); ("text", Num 0)]) []);
      try reflexivity.
    repeat constructor. discriminate.
  - apply (Hplain (Obj [("sum", Num 5)])). reflexivity.
Defined.

(** C7, as stated, fails: for a response whose first text item has the
    empty string as its text, normalization does not give that text (the
    fallback for text that does not parse); it gives the whole response. *)
Lemma normalize_empty_text_not_extracted :
  JSON_parse (demo_env (inr Null) None None) EmptyString = None /\
  normalize (demo_env (inr Null) None None) (text_response (Str EmptyString))
    = inr (text_response (Str EmptyString)) /\
  normalize (demo_env (inr Null) None None) (text_response (Str EmptyString))
    <> inr (Str EmptyString).
Proof. split; [reflexivity|]. split; [reflexivity|discriminate]. Qed.

(** ** Invoker: [callTool] *)

Lemma callTool_catches (E : Env) (input : CallToolInput.t) (s : State) :
  callTool E input s =
  match callTool_try E input (now s) s with
  | (inr r, s1) => (inr r, s1)
  | (inl e, s1) => callTool_catch E input (now s) e s1
  end.
Proof.
  unfold callTool, bind, try_catch, Date_now.
  by destruct (callTool_try E input (now s) s) as [[e|r] s1].
Qed.

Lemma callTool_catch_returns (E : Env) (input : CallToolInput.t) (start : Z)
    (e : JS.error) (s : State) :
  callTool_catch E input start e s =
  (inr {| CallToolResponse.result := Null;
          CallToolResponse.error := Some (error_text E e);
          CallToolResponse.duration_ms := now s - start |},
   if connectivity_error E e
   then set_connectedClients (delete (CallToolInput.server_name input)) s
   else s).
Proof.
  unfold callTool_catch, bind, Date_now, modify, ret.
  by destruct (connectivity_error E e).
Qed.

Lemma callTool_total (E : Env) (input : CallToolInput.t) (s : State) :
  exists r s', callTool E input s = (inr r, s').
Proof.
  rewrite callTool_catches.
  destruct (callTool_try E input (now s) s) as [[e|r] s1]; [|by eauto].
  rewrite callTool_catch_returns. by eauto.
Qed.

Lemma uncache_absent (n : string) (s : State) :
  connectedClients s !! n = None -> set_connectedClients (delete n) s = s.
Proof.
  intros H. destruct s as [reg cache tr ef un t]. unfold set_connectedClients. cbn in *.
  f_equal. by apply delete_id.
Qed.

Lemma getClient_unregistered (E : Env) (n : string) (s : State) :
  sseServers s !! n = None -> connectedClients s !! n = None ->
  getClient E n s =
  (inl (ToolCallError n "connect" (ServerNotFoundError_message E n)), s).
Proof.
  intros Hreg Hcache. unfold getClient, bind, get. rewrite Hcache.
  unfold try_catch, bind, get. by rewrite Hreg.
Qed.

Lemma callTool_unregistered (E : Env) (input : CallToolInput.t) (s : State) :
  sseServers s !! CallToolInput.server_name input = None ->
  connectedClients s !! CallToolInput.server_name input = None ->
  callTool E input s =
  (inr {| CallToolResponse.result := Null;
          CallToolResponse.error :=
            Some (ToolCallError_message E (CallToolInput.server_name input) "connect"
                    (ServerNotFoundError_message E (CallToolInput.server_name input)));
          CallToolResponse.duration_ms := 0 |}, s).
Proof.
  intros Hreg Hcache. rewrite callTool_catches.
  unfold callTool_try, live_client, bind, get. rewrite Hcache.
  rewrite (getClient_unregistered E _ s Hreg Hcache).
  rewrite callTool_catch_returns. cbn [error_text message].
  rewrite Z.sub_diag. f_equal.
  destruct (connectivity_error E _); [|done]. by apply uncache_absent.
Qed.

(** C1 as the code has it.  For a name that is not in the registry
    [callTool] does not fail: it returns a result object.  When the name has
    no cached client either, the lookup throws, the [catch] of [callTool]
    takes that error like any other, and the result is [result: null] with
    the text of the error as its [error] string; registry and cache stay as
    they were.  No typed error reaches the caller of [callTool]. *)
Theorem callTool_unregistered_returns_error_result
    (E : Env) (input : CallToolInput.t) (s : State) :
  sseServers s !! CallToolInput.server_name input = None ->
  (exists r s', callTool E input s = (inr r, s')) /\
  (connectedClients s !! CallToolInput.server_name input = None ->
   exists e r s',
     callTool_try E input (now s) s = (inl e, s) /\
     callTool E input s = (inr r, s') /\
     CallToolResponse.result r = Null /\
     CallToolResponse.error r = Some (error_text E e) /\
     sseServers s' = sseServers s /\
     connectedClients s' = connectedClients s).
Proof.
  intros Hreg. split; [apply callTool_total|].
  intros Hcache.
  eexists _, _, _. split; [|split; [by apply callTool_unregistered|]].
  - unfold callTool_try, live_client, bind, get. rewrite Hcache.
    by rewrite (getClient_unregistered E _ s Hreg Hcache).
  - done.
Qed.

Lemma callTool_unregistered_returns_error_result_witness :
  sseServers empty_state !! "calc" = None /\
  exists r s',
    callTool (demo_env (inr Null) None None) add_2_3 empty_state = (inr r, s') /\
    CallToolResponse.result r = Null /\
    is_Some (CallToolResponse.error r).
Proof.
  split; [reflexivity|].
  destruct (callTool_unregistered_returns_error_result
              (demo_env (inr Null) None None) add_2_3 empty_state eq_refl)
    as [_ H].
  destruct (H eq_refl) as (e & r & s' & _ & Hcall & Hres & Herr & _).
  exists r, s'. split; [exact Hcall|]. split; [exact Hres|].
  rewrite Herr. by eexists.
Defined.

(** C1, as stated, fails: with nothing registered, a call on [calc] does
    not fail with [ServerNotFoundError]; it returns an error-string result. *)
Lemma callTool_unregistered_is_not_ServerNotFoundError :
  (exists r, callTool (demo_env (inr Null) None None) add_2_3 empty_state
             = (inr r, empty_state) /\
             CallToolResponse.error r =
             Some "Error calling tool 'connect' on server 'calc': Server 'calc' not found") /\
  ~ (exists s', callTool (demo_env (inr Null) None None) add_2_3 empty_state
                = (inl (ServerNotFoundError "calc"), s')).
Proof.
  pose proof (callTool_unregistered (demo_env (inr Null) None None) add_2_3
                empty_state eq_refl eq_refl) as H.
  split.
  - eexists. split; [exact H|reflexivity].
  - intros [s' Hs']. rewrite H in Hs'. discriminate.
Qed.

(** C3 as the code has it.  [callTool] never throws: every call returns a
    result object.  When anything inside its [try] fails, the object is
    [result: null], [error:] the text of the failure ([message] of an
    [Error], [String(error)] otherwise) and [duration_ms:] the time since the
    call began; the [error] string is empty exactly when that text is. *)
Theorem callTool_never_raises (E : Env) (input : CallToolInput.t) (s : State) :
  (exists r s', callTool E input s = (inr r, s')) /\
  (forall e s1,
     callTool_try E input (now s) s = (inl e, s1) ->
     exists s',
       callTool E input s =
       (inr {| CallToolResponse.result := Null;
               CallToolResponse.error := Some (error_text E e);
               CallToolResponse.duration_ms := now s1 - now s |}, s') /\
       sseServers s' = sseServers s1 /\ now s' = now s1).
Proof.
  split; [apply callTool_total|].
  intros e s1 Htry. rewrite callTool_catches, Htry, callTool_catch_returns.
  eexists. split; [reflexivity|].
  by destruct (connectivity_error E e).
Qed.

Lemma callTool_never_raises_witness :
  callTool_try (demo_env (inl (Error "ECONNREFUSED 127.0.0.1:4000")) None None)
    add_2_3 (now calc_registered) calc_registered
  = (inl (Error "ECONNREFUSED 127.0.0.1:4000"), elapse 7 calc_connected) /\
  exists s',
    callTool (demo_env (inl (Error "ECONNREFUSED 127.0.0.1:4000")) None None)
      add_2_3 calc_registered =
    (inr {| CallToolResponse.result := Null;
            CallToolResponse.error := Some "ECONNREFUSED 127.0.0.1:4000";
            CallToolResponse.duration_ms := 14 |}, s').
Proof.
  assert (H : callTool_try
                (demo_env (inl (Error "ECONNREFUSED 127.0.0.1:4000")) None None)
                add_2_3 (now calc_registered) calc_registered
              = (inl (Error "ECONNREFUSED 127.0.0.1:4000"), elapse 7 calc_connected)).
  { vm_compute. reflexivity. }
  split; [exact H|].
  destruct (callTool_never_raises
              (demo_env (inl (Error "ECONNREFUSED 127.0.0.1:4000")) None None)
              add_2_3 calc_registered) as [_ Hfail].
  destruct (Hfail _ _ H) as (s' & Hcall & _).
  exists s'. exact Hcall.
Defined.

(** C3, as stated, fails on the [error] string: when the failure carries an
    empty message, the result object carries an empty [error]. *)
Lemma callTool_error_can_be_empty :
  callTool_try (demo_env (inl (Error EmptyString)) None None)
    add_2_3 (now calc_registered) calc_registered
  = (inl (Error EmptyString), elapse 7 calc_connected) /\
  callTool (demo_env (inl (Error EmptyString)) None None) add_2_3 calc_registered =
  (inr {| CallToolResponse.result := Null;
          CallToolResponse.error := Some EmptyString;
          CallToolResponse.duration_ms := 14 |}, elapse 7 calc_connected).
Proof. split; vm_compute; reflexivity. Qed.

Lemma callTool_try_response (E : Env) (input : CallToolInput.t) (start : Z)
    (s s1 : State) (client : Client) (response : value) (ms : Z) :
  live_client E (CallToolInput.server_name input) s = (inr client, s1) ->
  Client_callTool E (now s1) client (CallToolInput.tool_name input)
    (CallToolInput.arguments input) = (inr response, ms) ->
  callTool_try E input start s =
  match normalize E response with
  | inr result =>
      (inr {| CallToolResponse.result := result;
              CallToolResponse.error := None;
              CallToolResponse.duration_ms := now s1 + ms - start |},
       elapse ms s1)
  | inl e => (inl e, elapse ms s1)
  end.
Proof.
  intros Hlive Hcall. unfold callTool_try, bind. rewrite Hlive.
  unfold await. rewrite Hcall. unfold Date_now, lift. cbn [now elapse].
  by destruct (normalize E response).
Qed.

(** C9. When the first text item of the response's content list has the
    empty string as its text, normalization keeps the response, as it does
    when the item has no text at all, and [callTool] returns the whole
    response as its [result]. *)
Theorem callTool_empty_text_returns_response
    (E : Env) (input : CallToolInput.t) (s s1 : State) (client : Client)
    (response tc : value) (pre post : list value) (ms : Z) :
  live_client E (CallToolInput.server_name input) s = (inr client, s1) ->
  Client_callTool E (now s1) client (CallToolInput.tool_name input)
    (CallToolInput.arguments input) = (inr response, ms) ->
  content_array response = Some (pre ++ tc :: post) ->
  Forall skipped pre -> is_text tc = true ->
  prop tc "text" = Some (Str EmptyString) \/ prop tc "text" = None ->
  normalize E response = inr response /\
  callTool E input s =
  (inr {| CallToolResponse.result := response;
          CallToolResponse.error := None;
          CallToolResponse.duration_ms := now s1 + ms - now s |},
   elapse ms s1).
Proof.
  intros Hlive Hcall Hc Hpre Htc Htext.
  assert (Hn : normalize E response = inr response).
  { destruct Htext as [Htext|Htext];
      by eapply normalize_falsy_text. }
  split; [exact Hn|].
  rewrite callTool_catches, (callTool_try_response E input _ s s1 client response ms)
    by assumption.
  by rewrite Hn.
Qed.

Lemma callTool_empty_text_returns_response_witness :
  live_client (demo_env (inr (text_response (Str EmptyString))) None None)
    "calc" calc_registered = (inr calc_client, calc_connected) /\
  callTool (demo_env (inr (text_response (Str EmptyString))) None None)
    add_2_3 calc_registered =
  (inr {| CallToolResponse.result := text_response (Str EmptyString);
          CallToolResponse.error := None;
          CallToolResponse.duration_ms := now calc_connected + 7 - now calc_registered |},
   elapse 7 calc_connected).
Proof.
  assert (H : live_client (demo_env (inr (text_response (Str EmptyString))) None None)
                "calc" calc_registered = (inr calc_client, calc_connected)).
  { vm_compute. reflexivity. }
  split; [exact H|].
  refine (proj2 (callTool_empty_text_returns_response
            (demo_env (inr (text_response (Str EmptyString))) None None)
            add_2_3 calc_registered calc_connected calc_client
            (text_response (Str EmptyString))
            (Obj [("type", Str "text"); ("text", Str EmptyString)])
            [Obj [("type", Str "image"); ("data", Str "AAAA")]] [] 7
            H eq_refl eq_refl _ eq_refl (or_introl eq_refl))).
  repeat constructor. discriminate.
Defined.

(** ** Test runner *)

Lemma compare_unknown_kind (E : Env) (expected : Expected.t) (actual : value) (s : State) :
  Expected.type expected <> "equals" ->
  Expected.type expected <> "contains" ->
  Expected.type expected <> "regex" ->
  compare E expected actual s = (inr false, s).
Proof.
  intros He Hc Hr. unfold compare.
  apply String.eqb_neq in He, Hc, Hr. by rewrite He, Hc, Hr.
Qed.

(** C10. When the tool call of a test comes back without an error and the
    test expects a kind other than [equals], [contains] and [regex], the
    test result is a failure with the mismatch message and no [error]:
    [runTestCase] neither passes the test nor throws. *)
Theorem runTestCase_unknown_kind_fails
    (E : Env) (serverName : string) (test : TestCase.t) (expected : Expected.t)
    (s s1 : State) (r : CallToolResponse.t) :
  TestCase.expected test = Some expected ->
  Expected.type expected <> "equals" ->
  Expected.type expected <> "contains" ->
  Expected.type expected <> "regex" ->
  callTool E {| CallToolInput.server_name := serverName;
                CallToolInput.tool_name := TestCase.tool test;
                CallToolInput.arguments := TestCase.input test |} s = (inr r, s1) ->
  truthy_error (CallToolResponse.error r) = false ->
  runTestCase E serverName test s =
  (inr {| TestResult.name := TestCase.name test;
          TestResult.passed := false;
          TestResult.message := "Test failed: result did not match expected value";
          TestResult.duration_ms := now s1 - now s;
          TestResult.error := None |}, s1).
Proof.
  intros Hexp He Hc Hr Hcall Hok.
  unfold runTestCase, bind, try_catch, Date_now, runTestCase_try, bind.
  rewrite Hcall, Hok, Hexp. unfold bind, Date_now. cbn beta iota.
  by rewrite (compare_unknown_kind E expected _ s1 He Hc Hr).
Qed.

Lemma runTestCase_unknown_kind_fails_witness :
  callTool (demo_env (inr (text_response (Str "5"))) None None)
    add_2_3 calc_registered =
  (inr {| CallToolResponse.result := Num 5;
          CallToolResponse.error := None;
          CallToolResponse.duration_ms := 14 |}, elapse 7 calc_connected) /\
  runTestCase (demo_env (inr (text_response (Str "5"))) None None)
    "calc" startsWith_test calc_registered =
  (inr {| TestResult.name := "adds";
          TestResult.passed := false;
          TestResult.message := "Test failed: result did not match expected value";
          TestResult.duration_ms := now (elapse 7 calc_connected) - now calc_registered;
          TestResult.error := None |}, elapse 7 calc_connected).
Proof.
  assert (H : callTool (demo_env (inr (text_response (Str "5"))) None None)
                add_2_3 calc_registered =
              (inr {| CallToolResponse.result := Num 5;
                      CallToolResponse.error := None;
                      CallToolResponse.duration_ms := 14 |}, elapse 7 calc_connected)).
  { vm_compute. reflexivity. }
  split; [exact H|].
  apply (runTestCase_unknown_kind_fails
           (demo_env (inr (text_response (Str "5"))) None None)
           "calc" startsWith_test
           {| Expected.type := "startsWith"; Expected.value := Num 5 |}
           calc_registered (elapse 7 calc_connected)
           {| CallToolResponse.result := Num 5;
              CallToolResponse.error := None;
              CallToolResponse.duration_ms := 14 |} eq_refl);
    [discriminate | discriminate | discriminate | exact H | reflexivity].
Defined.

Lemma runTests_catches (E : Env) (input : RunTestsInput.t) (s : State) :
  runTests E input s =
  match runTests_try E input (now s) s with
  | (inr r, s1) => (inr r, s1)
  | (inl e, s1) => runTests_catch E (now s) e s1
  end.
Proof.
  unfold runTests, bind, try_catch, Date_now.
  by destruct (runTests_try E input (now s) s) as [[e|r] s1].
Qed.



(** Every test of a run is counted once in the summary. *)
Lemma runTests_summary_adds_up (E : Env) (input : RunTestsInput.t) (s s1 : State)
    (r : RunTestsResponse.t) :
  runTests E input s = (inr r, s1) ->
  Summary.total (RunTestsResponse.summary r) =
  (Summary.passed (RunTestsResponse.summary r)
   + Summary.failed (RunTestsResponse.summary r))%nat.
Proof.
  rewrite runTests_catches.
  destruct (runTests_try E input (now s) s) as [[e|r0] s0] eqn:Htry.
  - unfold runTests_catch. destruct (instanceof_ServerNotFoundError e); [done|].
    unfold bind, Date_now, ret. by intros [= <- <-].
  - intros [= <- <-]. revert Htry. unfold runTests_try, bind.
    destruct (getServerProcess E _); [done|]. cbn.
    destruct (listTools E _ s) as [[e|tools] s2]; [done|].
    destruct (run_each E _ _ s2) as [[e|results] s3]; [done|].
    unfold Date_now, ret. intros [= <- <-]. cbn.
    pose proof (List.filter_length_le TestResult.passed results). lia.
Qed.

(* ===================================================================== *)
(** * Further properties                                                  *)
(* ===================================================================== *)

(** ** Registry *)

(** Unregistering a registered name removes its registration, drops its
    cached client and calls [close()] on that client's transport; every
    other name, every other client and the clock stay as they were. *)
Theorem unregisterSSEServer_registered (n : string) (s : State) :
  is_Some (sseServers s !! n) ->
  let s' := unregisterSSEServer n s in
  sseServers s' = delete n (sseServers s) /\
  connectedClients s' = delete n (connectedClients s) /\
  now s' = now s /\
  (forall client l t,
     connectedClients s !! n = Some client ->
     _transport client = Some l ->
     transports s !! l = Some t ->
     transports s' = <[l := (Transport.close t).1.2]> (transports s) /\
     effects s' = effects s ++ List.map (pair l) (Transport.close t).2) /\
  (connectedClients s !! n = None ->
     transports s' = transports s /\ effects s' = effects s).
Proof.
  intros Hreg s'. subst s'. unfold unregisterSSEServer.
  apply has_true in Hreg. rewrite Hreg. cbn [negb].
  cbn [set_sseServers sseServers connectedClients now transports effects].
  rewrite evict_sseServers, evict_connectedClients, evict_now.
  split; [done|]. split; [done|]. split; [done|]. split.
  - intros client l t Hc Hl Ht. by apply (evict_closes n s client l t).
  - intros Hc. by rewrite evict_nothing_cached.
Qed.

Lemma unregisterSSEServer_registered_witness :
  is_Some (sseServers (calc_cached Returns) !! "calc") /\
  unregisterSSEServer "calc" (calc_cached Returns) =
  {| sseServers := ∅; connectedClients := ∅;
     transports := {[ 0%nat := Transport.set_connected false
                                 (Transport.set_eventSource None (calc_transport Returns)) ]};
     effects := [(0%nat, CloseStream 0); (0%nat, NotifyClose)];
     unhandled := [];
     now := 100 |}.
Proof.
  assert (H : is_Some (sseServers (calc_cached Returns) !! "calc")).
  { apply has_true. reflexivity. }
  split; [exact H|].
  destruct (unregisterSSEServer_registered "calc" (calc_cached Returns) H)
    as (Hreg & Hcache & Hnow & Hclose & _).
  destruct (Hclose calc_client 0%nat (calc_transport Returns) eq_refl eq_refl eq_refl)
    as [Htr Hef].
  assert (Hun : unhandled (unregisterSSEServer "calc" (calc_cached Returns)) = [])
    by reflexivity.
  destruct (unregisterSSEServer "calc" (calc_cached Returns)) as [reg cache tr ef un t].
  cbn in Hreg, Hcache, Hnow, Htr, Hef, Hun. subst. f_equal.
Defined.

Lemma unregisterSSEServer_unknown_witness :
  sseServers calc_registered !! "other" = None /\
  unregisterSSEServer "other" calc_registered = calc_registered.
Proof.
  split; [reflexivity|].
  exact (unregisterSSEServer_unknown "other" calc_registered eq_refl).
Defined.

(** Registering a name that is neither registered nor cached and then
    unregistering it leaves the state exactly as it was, whatever [force]. *)
Theorem register_then_unregister (n u : string) (force : bool) (s : State) :
  sseServers s !! n = None ->
  connectedClients s !! n = None ->
  unregisterSSEServer n (registerSSEServer n u force s) = s.
Proof.
  intros Hreg Hcache.
  unfold registerSSEServer, has. rewrite Hreg. cbn [andb].
  unfold unregisterSSEServer, has.
  cbn [set_sseServers sseServers]. rewrite lookup_insert_eq. cbn [negb].
  rewrite evict_nothing_cached by done.
  destruct s as [reg cache tr ef un t]. unfold set_sseServers. cbn in *.
  f_equal. by apply delete_insert_id.
Qed.

Lemma register_then_unregister_witness :
  sseServers calc_registered !! "other" = None /\
  connectedClients calc_registered !! "other" = None /\
  unregisterSSEServer "other"
    (registerSSEServer "other" "http://localhost:5000" true calc_registered)
  = calc_registered.
Proof.
  split; [reflexivity|]. split; [reflexivity|].
  exact (register_then_unregister "other" "http://localhost:5000" true
           calc_registered eq_refl eq_refl).
Defined.

(** After a registration that takes effect (a new name, or [force]), the
    name maps to the url just given, and the registrations and cached
    clients of all other names are those from before. *)
Theorem registerSSEServer_lookup (n u : string) (force : bool) (s : State) :
  force = true \/ sseServers s !! n = None ->
  let s' := registerSSEServer n u force s in
  sseServers s' !! n = Some {| url := u; name := n |} /\
  (forall m, m <> n ->
     sseServers s' !! m = sseServers s !! m /\
     connectedClients s' !! m = connectedClients s !! m).
Proof.
  intros Heff s'. subst s'. unfold registerSSEServer.
  assert (Hgo : has (sseServers s) n && negb force = false).
  { destruct Heff as [-> | Hnone].
    - by rewrite andb_false_r.
    - unfold has. by rewrite Hnone. }
  rewrite Hgo. cbn [set_sseServers sseServers connectedClients].
  split; [apply lookup_insert_eq|].
  intros m Hm. rewrite lookup_insert_ne by done.
  destruct (has (sseServers s) n).
  - rewrite evict_sseServers, evict_connectedClients. cbn.
    by rewrite !lookup_delete_ne.
  - done.
Qed.

Lemma registerSSEServer_lookup_witness :
  sseServers (registerSSEServer "calc" "http://localhost:4001" true
                (calc_cached Returns)) !! "calc"
  = Some {| url := "http://localhost:4001"; name := "calc" |}.
Proof.
  exact (proj1 (registerSSEServer_lookup "calc" "http://localhost:4001" true
                  (calc_cached Returns) (or_introl eq_refl))).
Defined.

Lemma evict_cached_registered (n : string) (s : State) :
  cached_registered s -> cached_registered (evict n s).
Proof.
  intros Hinv m. rewrite evict_sseServers, evict_connectedClients.
  intros Hm. apply Hinv.
  destruct (decide (m = n)) as [->|Hne].
  - rewrite lookup_delete_eq in Hm. by destruct Hm.
  - by rewrite lookup_delete_ne in Hm.
Qed.

(** The two registry operations keep every cached client registered. *)
Theorem registry_keeps_cached_registered (n u : string) (force : bool) (s : State) :
  cached_registered s ->
  cached_registered (registerSSEServer n u force s) /\
  cached_registered (unregisterSSEServer n s).
Proof.
  intros Hinv. split.
  - unfold registerSSEServer.
    destruct (has (sseServers s) n && negb force); [done|].
    intros m. cbn [set_sseServers sseServers connectedClients].
    destruct (decide (m = n)) as [->|Hne].
    + intros _. rewrite lookup_insert_eq. by eexists.
    + rewrite lookup_insert_ne by done.
      destruct (has (sseServers s) n); [|by apply Hinv].
      rewrite evict_sseServers, evict_connectedClients. cbn.
      rewrite !lookup_delete_ne by done. by apply Hinv.
  - unfold unregisterSSEServer.
    destruct (has (sseServers s) n); cbn [negb]; [|done].
    intros m. cbn [set_sseServers sseServers connectedClients].
    rewrite evict_sseServers, evict_connectedClients.
    destruct (decide (m = n)) as [->|Hne].
    + rewrite lookup_delete_eq. by intros [? ?].
    + rewrite !lookup_delete_ne by done. by apply Hinv.
Qed.

Lemma calc_cached_registered (c : callback) : cached_registered (calc_cached c).
Proof.
  intros m. destruct (decide (m = "calc")) as [->|Hne].
  - intros _. apply has_true. reflexivity.
  - unfold calc_cached. cbn. rewrite lookup_singleton_ne by done. by intros [? ?].
Qed.

Lemma registry_keeps_cached_registered_witness :
  cached_registered (calc_cached Returns) /\
  cached_registered (unregisterSSEServer "calc" (calc_cached Returns)).
Proof.
  split; [apply calc_cached_registered|].
  exact (proj2 (registry_keeps_cached_registered "calc" EmptyString false
                  (calc_cached Returns) (calc_cached_registered Returns))).
Defined.

(** ** Client cache: [getClient] *)

(** [getClient], case by case. *)
Lemma getClient_cases (E : Env) (n : string) (s : State) :
  getClient E n s =
  match connectedClients s !! n with
  | Some client => (inr client, s)
  | None =>
      match sseServers s !! n with
      | None => (inl (ToolCallError n "connect" (ServerNotFoundError_message E n)), s)
      | Some d =>
          match Client_connect E (now s) n (url d) with
          | (Some e, ms) =>
              (inl (ToolCallError n "connect" (error_text E e)), refused_state n ms s)
          | (None, ms) =>
              (inr {| client_name := "test-client-" +:+ n;
                      _transport := Some (fresh (dom (transports s))) |},
               connected_state n ms s)
          end
      end
  end.
Proof.
  unfold getClient, bind, get.
  destruct (connectedClients s !! n) as [client|] eqn:Hc; [done|].
  unfold try_catch, bind, get.
  destruct (sseServers s !! n) as [d|] eqn:Hd; [|done].
  unfold connect_new, bind, get, modify, await_void, await.
  cbn [now sseServers connectedClients transports effects].
  destruct (Client_connect E (now s) n (url d)) as [[e|] ms] eqn:Hconn.
  - unfold throw, refused_state. by rewrite Hd.
  - unfold ret, elapse, set_connectedClients, connected_state.
    cbn [now sseServers connectedClients transports effects].
    by rewrite Hd, insert_insert_eq.
Qed.

(** The first use of a registered name connects once: the client is named
    after the server, it is cached under the name, its transport takes a
    fresh place in the store, the clock advances by the time of the
    handshake and the registry is as before. *)
Theorem getClient_connects (E : Env) (n : string) (d : ServerDetail) (ms : Z)
    (s : State) :
  sseServers s !! n = Some d ->
  connectedClients s !! n = None ->
  Client_connect E (now s) n (url d) = (None, ms) ->
  exists client s',
    getClient E n s = (inr client, s') /\
    client_name client = "test-client-" +:+ n /\
    connectedClients s' = <[n := client]> (connectedClients s) /\
    sseServers s' = sseServers s /\
    now s' = now s + ms /\
    (exists l, _transport client = Some l /\ transports s !! l = None /\
               (connected <$> transports s' !! l) = Some true /\
               forall l', l' <> l -> transports s' !! l' = transports s !! l').
Proof.
  intros Hd Hc Hconn. rewrite getClient_cases, Hc, Hd, Hconn.
  eexists _, _. split; [reflexivity|]. cbn.
  repeat (split; [done|]).
  exists (fresh (dom (transports s))). split; [done|]. split.
  - apply not_elem_of_dom. apply is_fresh.
  - split; [by rewrite lookup_insert_eq|].
    intros l' Hl'. by rewrite lookup_insert_ne.
Qed.

Lemma getClient_connects_witness :
  exists client s',
    getClient (demo_env (inr Null) None None) "calc" calc_registered = (inr client, s') /\
    client_name client = "test-client-calc" /\
    now s' = 107.
Proof.
  destruct (getClient_connects (demo_env (inr Null) None None) "calc"
              {| url := "http://localhost:4000"; name := "calc" |} 7 calc_registered
              eq_refl eq_refl eq_refl)
    as (client & s' & Hget & Hname & _ & _ & Hnow & _).
  exists client, s'. split; [exact Hget|]. split; [exact Hname|exact Hnow].
Defined.

(** A client that [getClient] returned is the one the next [getClient]
    returns, without another handshake and without any change of state. *)
Theorem getClient_again (E : Env) (n : string) (s s' : State) (client : Client) :
  getClient E n s = (inr client, s') ->
  getClient E n s' = (inr client, s').
Proof.
  rewrite getClient_cases. intros Hget.
  destruct (connectedClients s !! n) as [c|] eqn:Hc.
  - injection Hget as <- <-. by rewrite getClient_cases, Hc.
  - destruct (sseServers s !! n) as [d|]; [|done].
    destruct (Client_connect E (now s) n (url d)) as [[e|] ms]; [done|].
    injection Hget as <- <-. rewrite getClient_cases.
    unfold connected_state at 1. cbn [connectedClients]. by rewrite lookup_insert_eq.
Qed.

Lemma getClient_again_witness :
  getClient (demo_env (inr Null) None None) "calc" calc_registered
    = (inr calc_client, calc_connected) /\
  getClient (demo_env (inr Null) None None) "calc" calc_connected
    = (inr calc_client, calc_connected).
Proof.
  assert (H : getClient (demo_env (inr Null) None None) "calc" calc_registered
              = (inr calc_client, calc_connected)).
  { vm_compute. reflexivity. }
  split; [exact H|].
  exact (getClient_again _ _ _ _ _ H).
Defined.

(** Whatever goes wrong in [getClient], the caller sees a [ToolCallError]
    for the tool [connect], never a [ServerNotFoundError] or the error of
    the handshake itself; the name had no cached client and gets none. *)
Theorem getClient_fails_with_ToolCallError (E : Env) (n : string) (s s' : State)
    (e : JS.error) :
  getClient E n s = (inl e, s') ->
  (exists reason, e = ToolCallError n "connect" reason) /\
  connectedClients s !! n = None /\
  connectedClients s' = connectedClients s /\
  sseServers s' = sseServers s.
Proof.
  rewrite getClient_cases. intros Hget.
  destruct (connectedClients s !! n) as [c|]; [done|].
  destruct (sseServers s !! n) as [d|].
  - destruct (Client_connect E (now s) n (url d)) as [[e0|] ms]; [|done].
    injection Hget as <- <-. split; [by eexists|]. done.
  - injection Hget as <- <-. split; [by eexists|]. done.
Qed.

Lemma getClient_fails_with_ToolCallError_witness :
  getClient refusing_env "calc" calc_registered =
    (inl (ToolCallError "calc" "connect" "connect ECONNREFUSED 127.0.0.1:4000"),
     refused_state "calc" 7 calc_registered) /\
  connectedClients (refused_state "calc" 7 calc_registered) !! "calc" = None.
Proof.
  assert (H : getClient refusing_env "calc" calc_registered =
              (inl (ToolCallError "calc" "connect" "connect ECONNREFUSED 127.0.0.1:4000"),
               refused_state "calc" 7 calc_registered)).
  { vm_compute. reflexivity. }
  split; [exact H|].
  destruct (getClient_fails_with_ToolCallError _ _ _ _ _ H) as (_ & Hnone & Hsame & _).
  by rewrite Hsame.
Defined.

(** ** What the operations behind the cache do to the state *)

Lemma settles_refl (E : Env) (s : State) : settles E s s.
Proof. split; [done|]. split; [by left|]. done. Qed.

Lemma settles_trans (E : Env) (s1 s2 s3 : State) :
  settles E s1 s2 -> settles E s2 s3 -> settles E s1 s3.
Proof.
  intros (Hr1 & Hc1 & Ht1) (Hr2 & Hc2 & Ht2). split; [congruence|]. split.
  - intros n Hn. destruct (Hc2 n Hn) as [H|H]; [by apply Hc1|].
    right. by rewrite <- Hr1.
  - intros Hp. specialize (Ht1 Hp). specialize (Ht2 Hp). lia.
Qed.

Lemma settles_elapse (E : Env) (ms : Z) (s : State) :
  (punctual E -> 0 <= ms) -> settles E s (elapse ms s).
Proof.
  intros Hms. split; [done|]. split; [by left|].
  intros Hp. specialize (Hms Hp). cbn. lia.
Qed.

Lemma settles_uncache (E : Env) (n : string) (s : State) :
  settles E s (set_connectedClients (delete n) s).
Proof.
  split; [done|]. split; [|done]. intros m. cbn. intros Hm. left.
  destruct (decide (m = n)) as [->|Hne].
  - rewrite lookup_delete_eq in Hm. by destruct Hm.
  - by rewrite lookup_delete_ne in Hm.
Qed.

Section Keeps.

Context (R : State -> State -> Prop).
Context (R_refl : forall s, R s s).
Context (R_trans : forall s1 s2 s3, R s1 s2 -> R s2 s3 -> R s1 s3).

Lemma keeps_ret {A : Type} (a : A) : keeps R (ret a).
Proof. intros s r s' [= <- <-]. apply R_refl. Qed.

Lemma keeps_throw {A : Type} (e : JS.error) : keeps R (@throw A e).
Proof. intros s r s' [= <- <-]. apply R_refl. Qed.

Lemma keeps_get : keeps R get.
Proof. intros s r s' [= <- <-]. apply R_refl. Qed.

Lemma keeps_Date_now : keeps R Date_now.
Proof. intros s r s' [= <- <-]. apply R_refl. Qed.

Lemma keeps_lift {A : Type} (r : JS.error + A) : keeps R (lift r).
Proof. destruct r; [apply keeps_throw | apply keeps_ret]. Qed.

Lemma keeps_modify (f : State -> State) :
  (forall s, R s (f s)) -> keeps R (modify f).
Proof. intros Hf s r s' [= <- <-]. apply Hf. Qed.

Lemma keeps_bind {A B : Type} (m : M A) (k : A -> M B) :
  keeps R m -> (forall a, keeps R (k a)) -> keeps R (bind m k).
Proof.
  intros Hm Hk s r s'. unfold bind.
  destruct (m s) as [[e|a] s1] eqn:Hms.
  - intros [= <- <-]. by eapply Hm.
  - intros Hks. eapply R_trans; [by eapply Hm | by eapply Hk].
Qed.

Lemma keeps_try_catch {A : Type} (m : M A) (h : JS.error -> M A) :
  keeps R m -> (forall e, keeps R (h e)) -> keeps R (try_catch m h).
Proof.
  intros Hm Hh s r s'. unfold try_catch.
  destruct (m s) as [[e|a] s1] eqn:Hms.
  - intros Hhs. eapply R_trans; [by eapply Hm | by eapply Hh].
  - intros [= <- <-]. by eapply Hm.
Qed.

Lemma keeps_await {A : Type} (op : Z -> (JS.error + A) * Z) :
  (forall s, R s (elapse (op (now s)).2 s)) -> keeps R (await op).
Proof.
  intros Hop s r s'. unfold await. specialize (Hop s).
  destruct (op (now s)) as [r0 ms]. intros [= <- <-]. exact Hop.
Qed.

End Keeps.

Lemma getClient_settles (E : Env) (n : string) : keeps (settles E) (getClient E n).
Proof.
  intros s r s'. rewrite getClient_cases.
  destruct (connectedClients s !! n) as [c|] eqn:Hc.
  { intros [= <- <-]. apply settles_refl. }
  destruct (sseServers s !! n) as [d|] eqn:Hd.
  2:{ intros [= <- <-]. apply settles_refl. }
  destruct (Client_connect E (now s) n (url d)) as [[e|] ms] eqn:Hconn.
  - intros [= <- <-]. split; [done|]. split; [by left|].
    intros (_ & Hp & _). specialize (Hp (now s) n (url d)). rewrite Hconn in Hp.
    cbn in *. lia.
  - intros [= <- <-]. split; [done|]. split.
    + intros m. cbn. destruct (decide (m = n)) as [->|Hne].
      * intros _. right. by rewrite Hd.
      * rewrite lookup_insert_ne by done. by left.
    + intros (_ & Hp & _). specialize (Hp (now s) n (url d)). rewrite Hconn in Hp.
      cbn in *. lia.
Qed.

Lemma live_client_settles (E : Env) (n : string) : keeps (settles E) (live_client E n).
Proof.
  unfold live_client.
  apply keeps_bind; [apply settles_trans | apply keeps_get, settles_refl |].
  intros s0. destruct (connectedClients s0 !! n) as [c|]; [|apply getClient_settles].
  apply keeps_try_catch; [apply settles_trans | |].
  - apply keeps_bind; [apply settles_trans | | intros; apply keeps_ret, settles_refl].
    unfold await_void. apply keeps_await. intros s. apply settles_elapse.
    intros (Hp & _). specialize (Hp (now s)
      match sseServers s0 !! n with Some d => url d | None => EmptyString end).
    by destruct (fetch_HEAD E _ _).
  - intros e. apply keeps_bind; [apply settles_trans | | intros; apply getClient_settles].
    apply keeps_modify. apply settles_uncache.
Qed.

Lemma callTool_settles (E : Env) (input : CallToolInput.t) :
  keeps (settles E) (callTool E input).
Proof.
  unfold callTool.
  apply keeps_bind; [apply settles_trans | apply keeps_Date_now, settles_refl |].
  intros start. apply keeps_try_catch; [apply settles_trans | |].
  - unfold callTool_try.
    apply keeps_bind; [apply settles_trans | apply live_client_settles |].
    intros client.
    apply keeps_bind; [apply settles_trans | |].
    { apply keeps_await. intros s. apply settles_elapse.
      intros (_ & _ & Hp & _). apply Hp. }
    intros response.
    apply keeps_bind; [apply settles_trans | apply keeps_Date_now, settles_refl |].
    intros t1.
    apply keeps_bind; [apply settles_trans | apply keeps_lift, settles_refl |].
    intros result. apply keeps_ret, settles_refl.
  - intros e. unfold callTool_catch.
    apply keeps_bind; [apply settles_trans | apply keeps_Date_now, settles_refl |].
    intros t1.
    apply keeps_bind; [apply settles_trans | | intros; apply keeps_ret, settles_refl].
    destruct (connectivity_error E e); [|apply keeps_ret, settles_refl].
    apply keeps_modify, settles_uncache.
Qed.

Lemma listTools_settles (E : Env) (n : string) : keeps (settles E) (listTools E n).
Proof.
  unfold listTools.
  apply keeps_try_catch; [apply settles_trans | | intros; apply keeps_throw, settles_refl].
  apply keeps_bind; [apply settles_trans | apply getClient_settles |].
  intros client. apply keeps_await. intros s. apply settles_elapse.
  intros (_ & _ & _ & Hp). apply Hp.
Qed.

Lemma runTestCase_settles (E : Env) (n : string) (test : TestCase.t) :
  keeps (settles E) (runTestCase E n test).
Proof.
  unfold runTestCase.
  apply keeps_bind; [apply settles_trans | apply keeps_Date_now, settles_refl |].
  intros start. apply keeps_try_catch; [apply settles_trans | |].
  - unfold runTestCase_try.
    apply keeps_bind; [apply settles_trans | apply callTool_settles |].
    intros result.
    apply keeps_bind; [apply settles_trans | apply keeps_Date_now, settles_refl |].
    intros t1.
    destruct (truthy_error _); [apply keeps_ret, settles_refl|].
    destruct (TestCase.expected test) as [expected|]; [|apply keeps_ret, settles_refl].
    apply keeps_bind; [apply settles_trans | | intros; apply keeps_ret, settles_refl].
    unfold compare.
    repeat (destruct (String.eqb _ _); [apply keeps_ret, settles_refl|]).
    destruct (String.eqb _ _); [|apply keeps_ret, settles_refl].
    apply keeps_bind; [apply settles_trans | apply keeps_lift, settles_refl |].
    intros; apply keeps_ret, settles_refl.
  - intros e.
    apply keeps_bind; [apply settles_trans | apply keeps_Date_now, settles_refl |].
    intros; apply keeps_ret, settles_refl.
Qed.

Lemma run_each_settles (E : Env) (n : string) (tests : list TestCase.t) :
  keeps (settles E) (run_each E n tests).
Proof.
  induction tests as [|test rest IH]; cbn [run_each].
  - apply keeps_ret, settles_refl.
  - apply keeps_bind; [apply settles_trans | apply runTestCase_settles |].
    intros result.
    apply keeps_bind; [apply settles_trans | apply IH |].
    intros; apply keeps_ret, settles_refl.
Qed.

Lemma runTests_settles (E : Env) (input : RunTestsInput.t) :
  keeps (settles E) (runTests E input).
Proof.
  unfold runTests.
  apply keeps_bind; [apply settles_trans | apply keeps_Date_now, settles_refl |].
  intros start. apply keeps_try_catch; [apply settles_trans | |].
  - unfold runTests_try.
    apply keeps_bind; [apply settles_trans | |].
    { destruct (getServerProcess E _); [apply keeps_throw | apply keeps_ret];
        apply settles_refl. }
    intros _.
    apply keeps_bind; [apply settles_trans | apply listTools_settles |].
    intros tools.
    apply keeps_bind; [apply settles_trans | apply run_each_settles |].
    intros results.
    apply keeps_bind; [apply settles_trans | apply keeps_Date_now, settles_refl |].
    intros; apply keeps_ret, settles_refl.
  - intros e. unfold runTests_catch.
    destruct (instanceof_ServerNotFoundError e); [apply keeps_throw, settles_refl|].
    apply keeps_bind; [apply settles_trans | apply keeps_Date_now, settles_refl |].
    intros; apply keeps_ret, settles_refl.
Qed.

Lemma settles_cached_registered (E : Env) (s s' : State) :
  settles E s s' -> cached_registered s -> cached_registered s'.
Proof.
  intros (Hr & Hc & _) Hinv n Hn. rewrite Hr.
  destruct (Hc n Hn) as [H|H]; [by apply Hinv | done].
Qed.

(** Calling a tool, listing tools and running tests never change the
    registry, whatever the outcome. *)
Theorem registry_untouched (E : Env) :
  (forall input s r s', callTool E input s = (r, s') -> sseServers s' = sseServers s) /\
  (forall n s r s', listTools E n s = (r, s') -> sseServers s' = sseServers s) /\
  (forall n test s r s', runTestCase E n test s = (r, s') -> sseServers s' = sseServers s) /\
  (forall input s r s', runTests E input s = (r, s') -> sseServers s' = sseServers s).
Proof.
  split; [|split; [|split]].
  - intros input s r s' H. by destruct (callTool_settles E input s r s' H).
  - intros n s r s' H. by destruct (listTools_settles E n s r s' H).
  - intros n test s r s' H. by destruct (runTestCase_settles E n test s r s' H).
  - intros input s r s' H. by destruct (runTests_settles E input s r s' H).
Qed.

(** When every cached client is registered before a call, a listing or a
    test run, every cached client is registered after it. *)
Theorem cache_keeps_cached_registered (E : Env) (s : State) :
  cached_registered s ->
  (forall n r s', getClient E n s = (r, s') -> cached_registered s') /\
  (forall input r s', callTool E input s = (r, s') -> cached_registered s') /\
  (forall n r s', listTools E n s = (r, s') -> cached_registered s') /\
  (forall input r s', runTests E input s = (r, s') -> cached_registered s').
Proof.
  intros Hinv. split; [|split; [|split]].
  - intros n r s' H.
    eapply settles_cached_registered; [exact (getClient_settles E n s r s' H)|done].
  - intros input r s' H.
    eapply settles_cached_registered; [exact (callTool_settles E input s r s' H)|done].
  - intros n r s' H.
    eapply settles_cached_registered; [exact (listTools_settles E n s r s' H)|done].
  - intros input r s' H.
    eapply settles_cached_registered; [exact (runTests_settles E input s r s' H)|done].
Qed.

Lemma cache_keeps_cached_registered_witness :
  cached_registered (calc_cached Returns) /\
  cached_registered
    (callTool (demo_env (inr (Num 5)) (Some (Error "fetch failed")) None)
       add_2_3 (calc_cached Returns)).2.
Proof.
  split; [apply calc_cached_registered|].
  destruct (cache_keeps_cached_registered
              (demo_env (inr (Num 5)) (Some (Error "fetch failed")) None)
              (calc_cached Returns) (calc_cached_registered Returns))
    as (_ & Hcall & _).
  destruct (callTool _ add_2_3 (calc_cached Returns)) as [r s'] eqn:H.
  exact (Hcall add_2_3 r s' H).
Defined.

(** ** Invoker: [callTool], further *)

Lemma callTool_try_duration (E : Env) (input : CallToolInput.t) (start : Z)
    (s s1 : State) (r : CallToolResponse.t) :
  callTool_try E input start s = (inr r, s1) ->
  CallToolResponse.duration_ms r = now s1 - start /\
  CallToolResponse.error r = None.
Proof.
  unfold callTool_try, bind.
  destruct (live_client E _ s) as [[e|client] s0]; [done|].
  unfold await. destruct (Client_callTool E _ _ _ _) as [[e|response] ms]; [done|].
  unfold Date_now, lift. destruct (normalize E response) as [e|result]; [done|].
  by intros [= <- <-].
Qed.

(** [duration_ms] of a call is the time that passed on the clock between
    its start and its return, on success and on failure alike; in a
    punctual world it is not negative. *)
Theorem callTool_duration (E : Env) (input : CallToolInput.t) (s s' : State)
    (r : CallToolResponse.t) :
  callTool E input s = (inr r, s') ->
  CallToolResponse.duration_ms r = now s' - now s /\
  (punctual E -> 0 <= CallToolResponse.duration_ms r).
Proof.
  intros Hcall.
  assert (Hd : CallToolResponse.duration_ms r = now s' - now s).
  { revert Hcall. rewrite callTool_catches.
    destruct (callTool_try E input (now s) s) as [[e|r0] s1] eqn:Htry.
    - rewrite callTool_catch_returns. intros [= <- <-]. cbn.
      by destruct (connectivity_error E e).
    - intros [= <- <-]. by destruct (callTool_try_duration _ _ _ _ _ _ Htry). }
  split; [exact Hd|]. intros Hp.
  destruct (callTool_settles E input s _ s' Hcall) as (_ & _ & Ht).
  specialize (Ht Hp). lia.
Qed.

Lemma demo_env_punctual (call : JS.error + value) (probe process : option JS.error) :
  punctual (demo_env call probe process).
Proof. repeat split; intros; cbn; lia. Qed.

Lemma callTool_duration_witness :
  callTool (demo_env (inr (text_response (Str "5"))) None None)
    add_2_3 calc_registered =
  (inr {| CallToolResponse.result := Num 5;
          CallToolResponse.error := None;
          CallToolResponse.duration_ms := 14 |}, elapse 7 calc_connected) /\
  14 = now (elapse 7 calc_connected) - now calc_registered /\
  0 <= 14.
Proof.
  assert (H : callTool (demo_env (inr (text_response (Str "5"))) None None)
                add_2_3 calc_registered =
              (inr {| CallToolResponse.result := Num 5;
                      CallToolResponse.error := None;
                      CallToolResponse.duration_ms := 14 |}, elapse 7 calc_connected)).
  { vm_compute. reflexivity. }
  split; [exact H|].
  destruct (callTool_duration _ _ _ _ _ H) as [Hd Hp].
  split; [exact Hd|]. apply Hp. apply demo_env_punctual.
Defined.

(** When a call fails with an [Error] whose message contains [ECONNREFUSED],
    [timeout] or [not connected], the name has no cached client afterwards,
    so the next call connects afresh; after any other failure the cache is
    as the failed attempt left it. *)
Theorem callTool_evicts_on_connectivity_error (E : Env) (input : CallToolInput.t)
    (s s1 : State) (e : JS.error) :
  callTool_try E input (now s) s = (inl e, s1) ->
  exists r s',
    callTool E input s = (inr r, s') /\
    (connectivity_error E e = true ->
       connectedClients s' !! CallToolInput.server_name input = None /\
       forall m, m <> CallToolInput.server_name input ->
                 connectedClients s' !! m = connectedClients s1 !! m) /\
    (connectivity_error E e = false -> s' = s1).
Proof.
  intros Htry. rewrite callTool_catches, Htry, callTool_catch_returns.
  eexists _, _. split; [reflexivity|].
  destruct (connectivity_error E e); split; try done.
  intros _. cbn. split; [apply lookup_delete_eq|].
  intros m Hm. by rewrite lookup_delete_ne.
Qed.

Lemma callTool_evicts_on_connectivity_error_witness :
  callTool_try (demo_env (inl (Error "Request timeout")) None None)
    add_2_3 (now (calc_cached Returns)) (calc_cached Returns)
  = (inl (Error "Request timeout"), elapse 7 (elapse 7 (calc_cached Returns))) /\
  connectedClients
    (callTool (demo_env (inl (Error "Request timeout")) None None)
       add_2_3 (calc_cached Returns)).2 !! "calc" = None.
Proof.
  assert (H : callTool_try (demo_env (inl (Error "Request timeout")) None None)
                add_2_3 (now (calc_cached Returns)) (calc_cached Returns)
              = (inl (Error "Request timeout"),
                 elapse 7 (elapse 7 (calc_cached Returns)))).
  { vm_compute. reflexivity. }
  split; [exact H|].
  destruct (callTool_evicts_on_connectivity_error _ _ _ _ _ H)
    as (r & s' & Hcall & Hev & _).
  rewrite Hcall. exact (proj1 (Hev eq_refl)).
Defined.

(** A cached client whose health check fails is dropped from the cache and
    replaced by a freshly connected one; the caller gets the new client.
    The transport of the dropped client is not closed: nothing is done to
    any transport that was already in the store. *)
Theorem live_client_replaces_stale_client (E : Env) (n : string) (s : State)
    (old : Client) (d : ServerDetail) (e : JS.error) (ms1 ms2 : Z) :
  connectedClients s !! n = Some old ->
  sseServers s !! n = Some d ->
  fetch_HEAD E (now s) (url d) = (Some e, ms1) ->
  Client_connect E (now s + ms1) n (url d) = (None, ms2) ->
  exists client s',
    live_client E n s = (inr client, s') /\
    connectedClients s' !! n = Some client /\
    _transport client = Some (fresh (dom (transports s))) /\
    (forall l t, transports s !! l = Some t -> transports s' !! l = Some t) /\
    effects s' = effects s ++ [(fresh (dom (transports s)), OpenStream 0)] /\
    now s' = now s + ms1 + ms2.
Proof.
  intros Hold Hd Hprobe Hconn.
  unfold live_client, bind, get. rewrite Hold, Hd.
  unfold try_catch, bind, await_void, await. rewrite Hprobe.
  unfold modify. rewrite getClient_cases.
  cbn [elapse set_connectedClients connectedClients sseServers now transports].
  rewrite lookup_delete_eq, Hd, Hconn.
  eexists _, _. split; [reflexivity|].
  cbn. split; [by rewrite lookup_insert_eq|]. split; [done|]. split; [|done].
  intros l t Hl. rewrite lookup_insert_ne; [done|].
  intros <-. pose proof (is_fresh (dom (transports s))) as Hf.
  apply not_elem_of_dom in Hf. congruence.
Qed.

Lemma live_client_replaces_stale_client_witness :
  exists client s',
    live_client (demo_env (inr (Num 5)) (Some (Error "fetch failed")) None)
      "calc" (calc_cached Returns) = (inr client, s') /\
    _transport client = Some 1%nat /\
    transports s' !! 0%nat = Some (calc_transport Returns).
Proof.
  destruct (live_client_replaces_stale_client
              (demo_env (inr (Num 5)) (Some (Error "fetch failed")) None)
              "calc" (calc_cached Returns) calc_client
              {| url := "http://localhost:4000"; name := "calc" |}
              (Error "fetch failed") 7 7 eq_refl eq_refl eq_refl eq_refl)
    as (client & s' & Hlive & _ & Htr & Hkeep & _).
  exists client, s'. split; [exact Hlive|]. split.
  - rewrite Htr. vm_compute. reflexivity.
  - apply Hkeep. reflexivity.
Defined.



(** ** [listTools] *)

(** Every failure of [listTools] reaches the caller as a [ToolCallError]
    for the tool [listTools]; for a name that is neither registered nor
    cached its reason is the message of the [connect] error that wraps the
    [ServerNotFoundError], so the typed error is wrapped twice. *)
Theorem listTools_fails_with_ToolCallError (E : Env) (n : string) (s s' : State)
    (e : JS.error) :
  listTools E n s = (inl e, s') ->
  (exists reason, e = ToolCallError n "listTools" reason) /\
  (sseServers s !! n = None -> connectedClients s !! n = None ->
   e = ToolCallError n "listTools"
         (ToolCallError_message E n "connect" (ServerNotFoundError_message E n)) /\
   s' = s).
Proof.
  unfold listTools, try_catch, bind.
  destruct (getClient E n s) as [[e0|client] s1] eqn:Hget.
  - unfold throw. intros [= <- <-]. split; [by eexists|].
    intros Hreg Hcache. rewrite (getClient_unregistered E n s Hreg Hcache) in Hget.
    by injection Hget as <- <-.
  - unfold await. destruct (Client_listTools E (now s1) client) as [[e0|tools] ms].
    + unfold throw. intros [= <- <-]. split; [by eexists|].
      intros Hreg Hcache. rewrite (getClient_unregistered E n s Hreg Hcache) in Hget.
      done.
    + done.
Qed.

Lemma listTools_fails_with_ToolCallError_witness :
  listTools (demo_env (inr Null) None None) "calc" empty_state =
  (inl (ToolCallError "calc" "listTools"
          "Error calling tool 'connect' on server 'calc': Server 'calc' not found"),
   empty_state).
Proof.
  destruct (listTools (demo_env (inr Null) None None) "calc" empty_state)
    as [[e|tools] s'] eqn:H; [|vm_compute in H; discriminate].
  destruct (listTools_fails_with_ToolCallError _ _ _ _ _ H) as [_ Hwrap].
  destruct (Hwrap eq_refl eq_refl) as [-> ->]. reflexivity.
Defined.

(** ** Test runner, further *)

Lemma runTestCase_catches (E : Env) (n : string) (test : TestCase.t) (s : State) :
  runTestCase E n test s =
  match runTestCase_try E n test (now s) s with
  | (inr r, s1) => (inr r, s1)
  | (inl e, s1) => (inr (crashed E test e (now s1 - now s)), s1)
  end.
Proof.
  unfold runTestCase, bind, try_catch, Date_now.
  by destruct (runTestCase_try E n test (now s) s) as [[e|r] s1].
Qed.

Lemma runTestCase_try_name (E : Env) (n : string) (test : TestCase.t) (start : Z)
    (s s1 : State) (r : TestResult.t) :
  runTestCase_try E n test start s = (inr r, s1) ->
  TestResult.name r = TestCase.name test /\
  TestResult.duration_ms r = now s1 - start.
Proof.
  unfold runTestCase_try, bind.
  destruct (callTool E _ s) as [[e|result] s0]; [done|].
  unfold Date_now. cbn beta iota.
  destruct (truthy_error _); [by intros [= <- <-]|].
  destruct (TestCase.expected test) as [expected|]; [|by intros [= <- <-]].
  unfold bind. destruct (compare E expected _ s0) as [[e|passed] s2] eqn:Hcmp; [done|].
  intros [= <- <-]. cbn. split; [done|].
  revert Hcmp. unfold compare.
  repeat (destruct (String.eqb _ _); [by intros [= <- <-]|]).
  destruct (String.eqb _ _); [|by intros [= <- <-]].
  unfold bind, lift. destruct (RegExp_new E _); [done|]. by intros [= <- <-].
Qed.

(** [runTestCase] never throws: whatever happens, it returns a result that
    carries the name of the test and, as its duration, the time that passed
    on the clock. *)
Theorem runTestCase_total (E : Env) (n : string) (test : TestCase.t) (s : State) :
  exists r s',
    runTestCase E n test s = (inr r, s') /\
    TestResult.name r = TestCase.name test /\
    TestResult.duration_ms r = now s' - now s.
Proof.
  rewrite runTestCase_catches.
  destruct (runTestCase_try E n test (now s) s) as [[e|r] s1] eqn:Htry.
  - by eexists _, _.
  - eexists _, _. split; [reflexivity|]. by eapply runTestCase_try_name.
Qed.

(** A call that comes back with a non-empty [error] fails the test,
    whatever the test expects: the message is [Tool call failed:] followed
    by the error, which the result carries too. *)
Theorem runTestCase_call_error (E : Env) (n : string) (test : TestCase.t)
    (s s1 : State) (r : CallToolResponse.t) (err : string) :
  callTool E {| CallToolInput.server_name := n;
                CallToolInput.tool_name := TestCase.tool test;
                CallToolInput.arguments := TestCase.input test |} s = (inr r, s1) ->
  CallToolResponse.error r = Some err ->
  nonempty err = true ->
  runTestCase E n test s =
  (inr {| TestResult.name := TestCase.name test;
          TestResult.passed := false;
          TestResult.message := "Tool call failed: " +:+ err;
          TestResult.duration_ms := now s1 - now s;
          TestResult.error := Some err |}, s1).
Proof.
  intros Hcall Herr Hne.
  rewrite runTestCase_catches. unfold runTestCase_try, bind.
  rewrite Hcall. unfold Date_now. cbn beta iota.
  rewrite Herr. cbn [truthy_error]. by rewrite Hne.
Qed.

Lemma runTestCase_call_error_witness :
  runTestCase (demo_env (inr Null) None None) "calc" equals_5_test empty_state =
  (inr {| TestResult.name := "adds";
          TestResult.passed := false;
          TestResult.message :=
            "Tool call failed: "
            +:+ "Error calling tool 'connect' on server 'calc': Server 'calc' not found";
          TestResult.duration_ms := now empty_state - now empty_state;
          TestResult.error :=
            Some "Error calling tool 'connect' on server 'calc': Server 'calc' not found" |},
   empty_state).
Proof.
  apply (runTestCase_call_error (demo_env (inr Null) None None) "calc" equals_5_test
           empty_state empty_state
           {| CallToolResponse.result := Null;
              CallToolResponse.error :=
                Some "Error calling tool 'connect' on server 'calc': Server 'calc' not found";
              CallToolResponse.duration_ms := 0 |}).
  - vm_compute. reflexivity.
  - reflexivity.
  - reflexivity.
Defined.

(** When the call comes back without an error, the verdict follows the
    expectation: none passes; [equals] compares the two serializations;
    [contains] looks for the serialized expectation inside the serialized
    result; [regex] runs the compiled pattern over the serialized result,
    and a pattern that does not compile fails the test with the error of the
    compiler instead of throwing. *)
Theorem runTestCase_verdict (E : Env) (n : string) (test : TestCase.t)
    (s s1 : State) (r : CallToolResponse.t) :
  callTool E {| CallToolInput.server_name := n;
                CallToolInput.tool_name := TestCase.tool test;
                CallToolInput.arguments := TestCase.input test |} s = (inr r, s1) ->
  truthy_error (CallToolResponse.error r) = false ->
  let actual := JSON_stringify E (CallToolResponse.result r) in
  let d := now s1 - now s in
  (TestCase.expected test = None ->
     runTestCase E n test s = (inr (compared test true d), s1)) /\
  (forall v, TestCase.expected test = Some {| Expected.type := "equals"; Expected.value := v |} ->
     runTestCase E n test s =
     (inr (compared test (String.eqb actual (JSON_stringify E v)) d), s1)) /\
  (forall v, TestCase.expected test = Some {| Expected.type := "contains"; Expected.value := v |} ->
     runTestCase E n test s =
     (inr (compared test (includes actual (JSON_stringify E v)) d), s1)) /\
  (forall v re,
     TestCase.expected test = Some {| Expected.type := "regex"; Expected.value := v |} ->
     RegExp_new E v = inr re ->
     runTestCase E n test s = (inr (compared test (re actual) d), s1)) /\
  (forall v e,
     TestCase.expected test = Some {| Expected.type := "regex"; Expected.value := v |} ->
     RegExp_new E v = inl e ->
     runTestCase E n test s = (inr (crashed E test e d), s1)).
Proof.
  intros Hcall Hok actual d. subst actual d.
  assert (Hrun : runTestCase E n test s =
    match TestCase.expected test with
    | Some expected =>
        match compare E expected (CallToolResponse.result r) s1 with
        | (inr passed, s2) => (inr (compared test passed (now s1 - now s)), s2)
        | (inl e, s2) => (inr (crashed E test e (now s2 - now s)), s2)
        end
    | None => (inr (compared test true (now s1 - now s)), s1)
    end).
  { rewrite runTestCase_catches. unfold runTestCase_try, bind.
    rewrite Hcall. unfold Date_now. cbn beta iota. rewrite Hok.
    destruct (TestCase.expected test) as [expected|]; [|done].
    unfold bind. by destruct (compare E expected _ s1) as [[e|passed] s2]. }
  rewrite Hrun. repeat split.
  - by intros ->.
  - by intros v ->.
  - by intros v ->.
  - intros v re -> Hre. unfold compare. cbn. unfold bind, lift. by rewrite Hre.
  - intros v e -> Hre. unfold compare. cbn. unfold bind, lift. by rewrite Hre.
Qed.

Lemma runTestCase_verdict_witness :
  runTestCase (demo_env (inr (text_response (Str "5"))) None None)
    "calc" equals_5_test calc_registered =
  (inr (compared equals_5_test true
          (now (elapse 7 calc_connected) - now calc_registered)),
   elapse 7 calc_connected).
Proof.
  assert (H : callTool (demo_env (inr (text_response (Str "5"))) None None)
                add_2_3 calc_registered =
              (inr {| CallToolResponse.result := Num 5;
                      CallToolResponse.error := None;
                      CallToolResponse.duration_ms := 14 |}, elapse 7 calc_connected)).
  { vm_compute. reflexivity. }
  destruct (runTestCase_verdict (demo_env (inr (text_response (Str "5"))) None None)
              "calc" equals_5_test calc_registered (elapse 7 calc_connected) _ H eq_refl)
    as (_ & Heq & _).
  exact (Heq (Num 5) eq_refl).
Defined.

Lemma runTestCase_returns (E : Env) (n : string) (test : TestCase.t) (s : State) :
  exists r s',
    runTestCase E n test s = (inr r, s') /\ TestResult.name r = TestCase.name test.
Proof.
  rewrite runTestCase_catches.
  destruct (runTestCase_try E n test (now s) s) as [[e|r] s1] eqn:Htry.
  - by eexists _, _.
  - eexists _, _. split; [reflexivity|]. by eapply runTestCase_try_name.
Qed.

Lemma listTools_not_ServerNotFoundError (E : Env) (n : string) (s s' : State)
    (e : JS.error) :
  listTools E n s = (inl e, s') -> instanceof_ServerNotFoundError e = false.
Proof.
  unfold listTools, try_catch, bind.
  destruct (getClient E n s) as [[e0|client] s1].
  - unfold throw. by intros [= <- <-].
  - unfold await. destruct (Client_listTools E (now s1) client) as [[e0|tools] ms];
      [|done].
    unfold throw. by intros [= <- <-].
Qed.

Lemma run_each_total (E : Env) (n : string) (tests : list TestCase.t) (s : State) :
  exists results s',
    run_each E n tests s = (inr results, s') /\
    List.map TestResult.name results = List.map TestCase.name tests.
Proof.
  revert s. induction tests as [|test rest IH]; intros s; cbn [run_each].
  - by eexists _, _.
  - unfold bind.
    destruct (runTestCase_returns E n test s) as (r & s1 & Hr & Hname).
    rewrite Hr. destruct (IH s1) as (results & s2 & Hrest & Hnames).
    rewrite Hrest. eexists _, _. split; [reflexivity|]. cbn. by rewrite Hname, Hnames.
Qed.

(** [runTests] throws only what [getServerProcess] threw, and only when
    that is a [ServerNotFoundError]; the state is then untouched.  An
    unregistered SSE server is not such a case: it surfaces as the
    [Test suite setup] failure. *)
Theorem runTests_throws_only_ServerNotFoundError (E : Env) (input : RunTestsInput.t)
    (s s' : State) (e : JS.error) :
  runTests E input s = (inl e, s') ->
  getServerProcess E (RunTestsInput.server_name input) = Some e /\
  instanceof_ServerNotFoundError e = true /\
  s' = s.
Proof.
  rewrite runTests_catches.
  destruct (runTests_try E input (now s) s) as [[e0|r] s1] eqn:Htry; [|done].
  unfold runTests_catch.
  destruct (instanceof_ServerNotFoundError e0) eqn:Hsnf.
  2:{ unfold bind, Date_now, ret. done. }
  unfold throw. intros [= <- <-]. revert Htry. unfold runTests_try, bind.
  destruct (getServerProcess E _) as [e1|].
  - unfold throw. by intros [= <- <-].
  - cbn. destruct (listTools E _ s) as [[e1|tools] s2] eqn:Hlist.
    + intros [= <- <-].
      by rewrite (listTools_not_ServerNotFoundError _ _ _ _ _ Hlist) in Hsnf.
    + destruct (run_each_total E (RunTestsInput.server_name input)
                  (List.map basicTest tools) s2) as (results & s3 & -> & _).
      done.
Qed.

Lemma runTests_throws_only_ServerNotFoundError_witness :
  runTests (demo_env (inr Null) None (Some (ServerNotFoundError "calc")))
    run_calc calc_registered = (inl (ServerNotFoundError "calc"), calc_registered) /\
  getServerProcess (demo_env (inr Null) None (Some (ServerNotFoundError "calc"))) "calc"
    = Some (ServerNotFoundError "calc").
Proof.
  assert (H : runTests (demo_env (inr Null) None (Some (ServerNotFoundError "calc")))
                run_calc calc_registered
              = (inl (ServerNotFoundError "calc"), calc_registered)).
  { vm_compute. reflexivity. }
  split; [exact H|].
  exact (proj1 (runTests_throws_only_ServerNotFoundError _ _ _ _ _ H)).
Defined.

Lemma runTestCase_without_expectation (E : Env) (n : string) (test : TestCase.t)
    (s s' : State) (r : TestResult.t) :
  TestCase.expected test = None ->
  runTestCase E n test s = (inr r, s') ->
  pass_or_error r.
Proof.
  intros Hexp. rewrite runTestCase_catches.
  destruct (runTestCase_try E n test (now s) s) as [[e|r0] s1] eqn:Htry.
  - intros [= <- <-]. right. by split; [|eexists].
  - intros [= <- <-]. revert Htry. unfold runTestCase_try, bind.
    destruct (callTool E _ s) as [[e|result] s0]; [done|].
    unfold Date_now. cbn beta iota. rewrite Hexp.
    destruct (CallToolResponse.error result) as [err|] eqn:Herr; cbn [truthy_error].
    + destruct (nonempty err); intros [= <- <-]; [right|left]; cbn; by eauto.
    + intros [= <- <-]. by left.
Qed.

Lemma run_each_without_expectation (E : Env) (n : string) (tests : list TestCase.t)
    (s s' : State) (results : list TestResult.t) :
  Forall (fun test => TestCase.expected test = None) tests ->
  run_each E n tests s = (inr results, s') ->
  Forall pass_or_error results.
Proof.
  intros Hall. revert s results.
  induction Hall as [|test rest Htest _ IH]; intros s results; cbn [run_each].
  - by intros [= <- <-].
  - unfold bind. destruct (runTestCase E n test s) as [[e|r] s1] eqn:Hr; [done|].
    destruct (run_each E n rest s1) as [[e|rs] s2] eqn:Hrest; [done|].
    intros [= <- <-]. constructor.
    + by eapply runTestCase_without_expectation.
    + by eapply IH.
Qed.

(** When the server process exists and the tools can be listed, [runTests]
    returns one result per tool, in the order of the listing and named
    [List <tool> schema]; each result passed without an error or failed with
    one; the summary counts every result once, and its duration is the time
    that passed on the clock. *)
Theorem runTests_one_result_per_tool (E : Env) (input : RunTestsInput.t)
    (s s1 : State) (tools : list string) :
  getServerProcess E (RunTestsInput.server_name input) = None ->
  listTools E (RunTestsInput.server_name input) s = (inr tools, s1) ->
  exists r s',
    runTests E input s = (inr r, s') /\
    List.map TestResult.name (RunTestsResponse.results r)
      = List.map basicTest_name tools /\
    Forall pass_or_error (RunTestsResponse.results r) /\
    Summary.total (RunTestsResponse.summary r) = List.length tools /\
    Summary.passed (RunTestsResponse.summary r)
      = List.length (List.filter TestResult.passed (RunTestsResponse.results r)) /\
    Summary.total (RunTestsResponse.summary r)
      = (Summary.passed (RunTestsResponse.summary r)
         + Summary.failed (RunTestsResponse.summary r))%nat /\
    Summary.duration_ms (RunTestsResponse.summary r) = now s' - now s.
Proof.
  intros Hproc Hlist.
  destruct (run_each_total E (RunTestsInput.server_name input)
              (List.map basicTest tools) s1) as (results & s2 & Hrun & Hnames).
  assert (Hgo : runTests E input s =
    (inr {| RunTestsResponse.results := results;
            RunTestsResponse.summary :=
              {| Summary.total := List.length results;
                 Summary.passed := List.length (List.filter TestResult.passed results);
                 Summary.failed :=
                   (List.length results
                    - List.length (List.filter TestResult.passed results))%nat;
                 Summary.duration_ms := now s2 - now s |} |}, s2)).
  { rewrite runTests_catches. unfold runTests_try, bind.
    rewrite Hproc. cbn. by rewrite Hlist, Hrun. }
  eexists _, _. split; [exact Hgo|]. cbn.
  assert (Hlen : List.length results = List.length tools).
  { rewrite <- (List.length_map TestResult.name results), Hnames.
    by rewrite !List.length_map. }
  split; [by rewrite Hnames, List.map_map|].
  split.
  { eapply run_each_without_expectation; [|exact Hrun].
    apply Forall_forall. intros test Hin.
    apply list_elem_of_In, List.in_map_iff in Hin. by destruct Hin as (tool & <- & _). }
  split; [done|]. split; [done|]. split; [|done].
  pose proof (List.filter_length_le TestResult.passed results). lia.
Qed.

Lemma runTests_one_result_per_tool_witness :
  exists r s',
    runTests refusing_env run_calc (calc_cached Returns) = (inr r, s') /\
    List.map TestResult.name (RunTestsResponse.results r)
      = ["List add schema"; "List sub schema"] /\
    Summary.total (RunTestsResponse.summary r) = 2%nat.
Proof.
  destruct (runTests_one_result_per_tool refusing_env run_calc (calc_cached Returns)
              (elapse 7 (calc_cached Returns)) ["add"; "sub"] eq_refl)
    as (r & s' & Hrun & Hnames & _ & Htotal & _).
  { vm_compute. reflexivity. }
  exists r, s'. split; [exact Hrun|]. split; [exact Hnames|exact Htotal].
Defined.

(** ** Transport, further *)

Lemma reconnect_never_gives_up_witness :
  exists r,
    run four_errors (started (observed (Transport.new "calc" "http://localhost:4000")))
      = Some r /\
    Forall (fun d => d = 1000) (waits (trace r)) /\
    (reconnectAttempts (tr r) <= 1)%nat.
Proof.
  destruct (run four_errors
              (started (observed (Transport.new "calc" "http://localhost:4000"))))
    as [r|] eqn:H; [|vm_compute in H; discriminate].
  exists r. split; [reflexivity|].
  assert (Hevs : unprompted four_errors) by (repeat constructor; discriminate).
  destruct (reconnect_never_gives_up
              (observed (Transport.new "calc" "http://localhost:4000"))
              four_errors r eq_refl eq_refl eq_refl Hevs H) as (Hw & _ & Hle).
  split; [exact Hw|exact Hle].
Defined.

Lemma sequential_step (ev : event) (r r' : Running) :
  ev <> Start -> steady r -> sequential r -> step ev r = Some r' -> sequential r'.
Proof.
  intros Hev Hst Hseq Hstep. unfold sequential in *.
  destruct ev as [| | |i|i]; cbn in Hstep; [done| | | |].
  - destruct (eventSource (tr r)) as [id|] eqn:Hes; [|done].
    injection Hstep as <-. cbn. by rewrite Hes.
  - destruct (eventSource (tr r)) as [id|] eqn:Hes; [|done].
    injection Hstep as <-. unfold stream_onerror.
    destruct Hst as [Hm _ Hc _ _ _].
    rewrite (Hc ltac:(by eexists)), Hm. cbn. rewrite Hseq. by eexists.
  - destruct (timers r !! i) as [d|] eqn:Hd; [|done].
    injection Hstep as <-. cbn.
    destruct (eventSource (tr r)) as [id|].
    + by rewrite Hseq in Hd.
    + destruct Hseq as [d0 Hseq]. rewrite Hseq in Hd |- *.
      destruct i as [|i]; [done|]. by destruct i.
  - destruct (starts r !! i) as [[id b]|]; [|done]. by injection Hstep as <-.
Qed.

(** Left to itself (no [start()] called from outside while it runs), a
    transport never has two reconnections under way: either a stream is
    live and no reconnect delay is running, or no stream is live and exactly
    one delay is. *)
Theorem reconnects_never_overlap (t : SSETransport) (evs : list event) (r : Running) :
  maxReconnectAttempts t = 3%nat -> reconnectDelay t = 1000 ->
  unprompted evs ->
  run evs (started t) = Some r ->
  sequential r.
Proof.
  intros Hm Hd Hevs Hrun.
  assert (H0 : steady (started t) /\ sequential (started t)).
  { split; [by apply steady_started | done]. }
  revert H0 Hrun. generalize (started t).
  induction Hevs as [|ev evs Hev _ IH]; intros r0 [Hst Hseq] Hrun; cbn in Hrun.
  - by injection Hrun as <-.
  - destruct (step ev r0) as [r1|] eqn:Hstep; [|done].
    apply (IH r1); [|done]. split.
    + by eapply steady_step.
    + by eapply sequential_step.
Qed.

Lemma reconnects_never_overlap_witness :
  exists r,
    run four_errors (started (observed (Transport.new "calc" "http://localhost:4000")))
      = Some r /\
    sequential r.
Proof.
  destruct (run four_errors
              (started (observed (Transport.new "calc" "http://localhost:4000"))))
    as [r|] eqn:H; [|vm_compute in H; discriminate].
  exists r. split; [reflexivity|].
  apply (reconnects_never_overlap
           (observed (Transport.new "calc" "http://localhost:4000"))
           four_errors r eq_refl eq_refl); [|exact H].
  repeat constructor; discriminate.
Defined.

(** ** Transport: [send] *)


(** [send] resolves exactly when the transport is connected, or its
    reconnection opens, and the POST is answered with success; the transport
    is then connected, the request was posted and nothing was reported to
    the observer.  A connected transport is not touched at all. *)
Theorem send_resolves (E : Env) (id : nat) (sr : start_result) (po : post_result)
    (t : SSETransport) :
  let r := send E id sr po t in
  (settled r = inr tt <-> (connected t = true \/ sr = Opened) /\ po = PostOk) /\
  (settled r = inr tt ->
     connected (after r) = true /\ posted r = true /\ reported (did r) = [] /\
     (connected t = true -> after r = t /\ did r = [])).
Proof.
  unfold send, send_try, start_await.
  destruct (connected t) eqn:Hc; [|destruct sr]; destruct po; cbn;
    repeat match goal with
    | |- context [connection_error E ?e] => destruct (connection_error E e)
    | |- context [report ?t ?e] => destruct (report t e)
    end; cbn; (split; [split|]); intros; try done; intuition congruence.
Qed.

Lemma send_resolves_witness :
  settled (send (demo_env (inr Null) None None) 1 Opened PostOk
             (Transport.new "calc" "http://localhost:4000")) = inr tt /\
  connected (after (send (demo_env (inr Null) None None) 1 Opened PostOk
                      (Transport.new "calc" "http://localhost:4000"))) = true.
Proof.
  destruct (send_resolves (demo_env (inr Null) None None) 1 Opened PostOk
              (Transport.new "calc" "http://localhost:4000")) as [[_ Hif] Hthen].
  assert (H := Hif (conj (or_intror eq_refl) eq_refl)).
  split; [exact H|]. exact (proj1 (Hthen H)).
Defined.





(** ** Transport: inbound frames *)

(** A frame that parses is handed to the observer's [onmessage] once, also
    when its text contains [connected]; a frame that does not parse is
    dropped in silence when it contains [connected] and is otherwise
    reported once as an error.  No frame is handed over twice. *)
Theorem stream_onmessage_dispatch (E : Env) (syntaxError data : string)
    (t : SSETransport) :
  let out := stream_onmessage E syntaxError data t in
  (forall v, JSON_parse E data = Some v -> is_Some (onmessage t) ->
             List.filter (fun o => match o with ToMessage _ => true | _ => false end) out
             = [ToMessage v]) /\
  (JSON_parse E data = None -> includes data "connected" = true -> out = []) /\
  (JSON_parse E data = None -> includes data "connected" = false ->
   is_Some (onerror t) -> out = [ToError (Error syntaxError)]) /\
  (List.length out <= 2)%nat.
Proof.
  unfold stream_onmessage. repeat split.
  - intros v -> [cb Hcb]. rewrite Hcb. destruct cb as [|e]; [done|].
    cbn. destruct (onerror t); [|done]. by destruct (instanceof_Error e).
  - by intros -> ->.
  - intros -> -> [cb ->]. done.
  - destruct (JSON_parse E data).
    + destruct (onmessage t) as [[|e]|]; cbn; try lia.
      destruct (onerror t); [|cbn; lia]. destruct (instanceof_Error e); cbn; lia.
    + destruct (includes data "connected"); [cbn; lia|].
      destruct (onerror t); cbn; lia.
Qed.

Lemma stream_onmessage_dispatch_witness :
  stream_onmessage (demo_env (inr Null) None None) "Unexpected token c"
    "connected" (calc_transport Returns) = [] /\
  stream_onmessage (demo_env (inr Null) None None) "Unexpected token h"
    "hello" (calc_transport Returns) = [ToError (Error "Unexpected token h")].
Proof.
  destruct (stream_onmessage_dispatch (demo_env (inr Null) None None)
              "Unexpected token c" "connected" (calc_transport Returns))
    as (_ & Hdrop & _).
  destruct (stream_onmessage_dispatch (demo_env (inr Null) None None)
              "Unexpected token h" "hello" (calc_transport Returns))
    as (_ & _ & Herr & _).
  split.
  - exact (Hdrop eq_refl eq_refl).
  - apply (Herr eq_refl eq_refl). by eexists.
Defined.

Lemma registry_untouched_witness :
  sseServers (callTool refusing_env add_2_3 (calc_cached Returns)).2
  = sseServers (calc_cached Returns).
Proof.
  destruct (callTool refusing_env add_2_3 (calc_cached Returns)) as [r s'] eqn:H.
  exact (proj1 (registry_untouched refusing_env) add_2_3 (calc_cached Returns) r s' H).
Defined.
